(** * brick-check: [stages/03_verify.py]

    A shallow embedding of the brick verification stage and the proofs of
    its specification.

    The script talks to the outside world all the time: it runs the
    [biobricks] command line tool, asks the [biobricks] library where an
    asset lives, opens parquet, SQLite and RDF files, reads the catalog and
    appends to the failure log.  The embedding separates

    - the _world_ ([World]): what the outside answers, a read-only record
      of oracles, one per library call of the script;
    - the _state_ ([State]): what the script changes (the failure log, the
      open database handles, the console) together with the sequence of
      library calls it has made;
    - the _program_: every function of the script, under its own name, in
      a state-and-exception monad [M].

    Python [str] values are modelled by [string]: a character is a code
    point below 256, and [isspace] and [lower] are Python's on that range. *)

From Stdlib Require Import ZArith Ascii String List Bool Lia.
From stdpp Require Import base option list strings gmap pretty.

Local Open Scope string_scope.
Local Open Scope Z_scope.

(* ===================================================================== *)
(** * Python strings *)
(* ===================================================================== *)

Module PyStr.

(** [str.isspace] on one character: TAB..CR, FS..US, space, NEL, NBSP. *)
Definition isspace (c : ascii) : bool :=
  let n := N_of_ascii c in
  ((9 <=? n) && (n <=? 13) || (28 <=? n) && (n <=? 32)
   || (n =? 133) || (n =? 160))%N.

(** [str.lower] on one character: A-Z and the Latin-1 capitals. *)
Definition lower_char (c : ascii) : ascii :=
  let n := N_of_ascii c in
  if ((65 <=? n) && (n <=? 90)
      || (192 <=? n) && (n <=? 222) && negb (n =? 215))%N
  then ascii_of_N (n + 32) else c.

Fixpoint lower (s : string) : string :=
  match s with
  | EmptyString => EmptyString
  | String c s' => String (lower_char c) (lower s')
  end.

Fixpoint lstrip (s : string) : string :=
  match s with
  | EmptyString => EmptyString
  | String c s' => if isspace c then lstrip s' else s
  end.

Fixpoint rstrip (s : string) : string :=
  match s with
  | EmptyString => EmptyString
  | String c s' =>
      match rstrip s' with
      | EmptyString => if isspace c then EmptyString else String c EmptyString
      | r => String c r
      end
  end.

(** [s.strip()] *)
Definition strip (s : string) : string := rstrip (lstrip s).

(** Truth value of a string: [if s:] *)
Definition truthy (s : string) : bool :=
  match s with EmptyString => false | _ => true end.

(** [s.startswith(p)] *)
Definition startswith (s p : string) : bool := String.prefix p s.

(** [s.endswith(suf)]: some tail of [s] is [suf]. *)
Fixpoint endswith (s suf : string) : bool :=
  if String.eqb s suf then true
  else match s with
       | EmptyString => false
       | String _ s' => endswith s' suf
       end.

(** [s.endswith((suf1, suf2, ...))] *)
Definition endswith_any (s : string) (sufs : list string) : bool :=
  existsb (endswith s) sufs.

(** [s.split(sep)] for a one-character separator: never empty. *)
Fixpoint split (sep : ascii) (s : string) : list string :=
  match s with
  | EmptyString => [EmptyString]
  | String c s' =>
      if Ascii.eqb c sep then EmptyString :: split sep s'
      else match split sep s' with
           | [] => [String c EmptyString]
           | x :: xs => String c x :: xs
           end
  end.

(** Universal newlines of a text-mode file: CR LF and CR become LF. *)
Fixpoint universal_newlines (s : string) : string :=
  match s with
  | EmptyString => EmptyString
  | String c s' =>
      if Ascii.eqb c "013" then
        match s' with
        | String c' s'' =>
            if Ascii.eqb c' "010" then String "010" (universal_newlines s'')
            else String "010" (universal_newlines s')
        | EmptyString => String "010" EmptyString
        end
      else String c (universal_newlines s')
  end.

(** The lines of a text, each with its line feed (the last one may have
    none); the empty text has no line. *)
Fixpoint lines_keepends (s : string) : list string :=
  match s with
  | EmptyString => []
  | String c s' =>
      if Ascii.eqb c "010" then String c EmptyString :: lines_keepends s'
      else match lines_keepends s' with
           | [] => [String c EmptyString]
           | x :: xs => String c x :: xs
           end
  end.

(** [for line in f] over a file opened in text mode. *)
Definition file_lines (content : string) : list string :=
  lines_keepends (universal_newlines content).

(** [os.path.basename] on POSIX: what follows the last slash. *)
Fixpoint basename (p : string) : string :=
  match p with
  | EmptyString => EmptyString
  | String c p' =>
      if existsb (Ascii.eqb "/") (list_ascii_of_string p') then basename p'
      else if Ascii.eqb c "/" then p' else p
  end.

(** [str(n)] for an integer and for a length. *)
Definition str_of_Z (n : Z) : string := pretty n.
Definition str_of_nat (n : nat) : string := pretty n.

(** [repr] of a list of strings (strings without quotes or escapes). *)
Definition repr_list (l : list string) : string :=
  "[" +:+ String.concat ", " (map (fun s => "'" +:+ s +:+ "'") l) +:+ "]".

End PyStr.
Import PyStr.


(* ===================================================================== *)
(** * Exceptions, state and the monad of the script *)
(* ===================================================================== *)

(** The subclasses of [Exception] the script can meet.  [str_exc] below is
    [str(e)].  An exception the libraries raise carries its text
    ([OtherException]).  The texts of the two exceptions of
    [subprocess.run] are built here, and only for the common case: a
    positive exit status and a command without quotes or escapes (a child
    killed by a signal has a negative status and another text), and the
    [stderr] of [TimeoutExpired] is kept as text (CPython hands over bytes
    or [None]).  Nothing proved below reads these two texts: the only
    caller of [run_command] drops the text of a failure. *)
Inductive pyexc : Type :=
| CalledProcessError (returncode : Z) (cmd : list string) (stderr : string)
| TimeoutExpired (cmd : list string) (timeout : Z) (stderr : string)
| AttributeError (obj attr : string)
| OtherException (msg : string).

(** What a [raise] carries: an [Exception], or the [SystemExit] of
    [sys.exit], which [except Exception] does not catch. *)
Inductive raised : Type :=
| Exc (e : pyexc)
| SystemExit (code : Z).

Definition str_exc (e : pyexc) : string :=
  match e with
  | CalledProcessError rc cmd _ =>
      "Command '" +:+ repr_list cmd +:+ "' returned non-zero exit status "
      +:+ str_of_Z rc +:+ "."
  | TimeoutExpired cmd t _ =>
      "Command '" +:+ repr_list cmd +:+ "' timed out after "
      +:+ str_of_Z t +:+ " seconds"
  | AttributeError obj attr =>
      "'" +:+ obj +:+ "' object has no attribute '" +:+ attr +:+ "'"
  | OtherException msg => msg
  end.

(** [except Exception] and [except (CalledProcessError, TimeoutExpired)] *)
Definition is_Exception (e : pyexc) : bool := true.

Definition is_CalledProcessError_or_TimeoutExpired (e : pyexc) : bool :=
  match e with
  | CalledProcessError _ _ _ | TimeoutExpired _ _ _ => true
  | _ => false
  end.

(** The library calls of the script, as they appear in the call log. *)
Inductive call : Type :=
| CallSubprocess (cmd : list string)
| CallAssets (brick : string)
| CallParquetDataset (path : string)
| CallSqliteConnect (path : string)
| CallSqliteExecute (path sql : string)
| CallSqliteClose (path : string)
| CallRdfParse (path : string)
| CallGetsize (path : string).

(** The answer of [subprocess.run]. *)
Inductive proc_outcome : Type :=
| Exited (returncode : Z) (stdout stderr : string)
| TimedOut (stderr : string)
| SpawnFailed (msg : string).

(** An opened SQLite database: what its two kinds of query answer. *)
Record sqlite_db : Type := {
  db_tables : pyexc + list string;
  db_execute_count : string -> pyexc + Z
}.

(** The outside world. *)
Record World : Type := {
  w_catalog : option string;
  w_subprocess : list string -> proc_outcome;
  w_assets : string -> pyexc + gmap string string;
  w_parquet : string -> pyexc + list (pyexc + Z);
  w_sqlite : string -> pyexc + sqlite_db;
  w_rdf : string -> pyexc + Z;
  w_getsize : string -> pyexc + Z
}.

(** What the script changes.  [st_failures] is [fail/failures.txt]: [None]
    when the file does not exist, otherwise its lines in order (each was
    written with its line feed). *)
Record State : Type := {
  st_failures : option (list string);
  st_fail_dir : bool;
  st_open : list string;
  st_calls : list call;
  st_stdout : list string;
  st_stderr : list string
}.

Definition set_failures (f : option (list string)) (st : State) : State :=
  {| st_failures := f; st_fail_dir := st_fail_dir st; st_open := st_open st;
     st_calls := st_calls st; st_stdout := st_stdout st;
     st_stderr := st_stderr st |}.

Definition set_fail_dir (d : bool) (st : State) : State :=
  {| st_failures := st_failures st; st_fail_dir := d; st_open := st_open st;
     st_calls := st_calls st; st_stdout := st_stdout st;
     st_stderr := st_stderr st |}.

Definition set_open (o : list string) (st : State) : State :=
  {| st_failures := st_failures st; st_fail_dir := st_fail_dir st;
     st_open := o; st_calls := st_calls st; st_stdout := st_stdout st;
     st_stderr := st_stderr st |}.

Definition set_calls (c : list call) (st : State) : State :=
  {| st_failures := st_failures st; st_fail_dir := st_fail_dir st;
     st_open := st_open st; st_calls := c; st_stdout := st_stdout st;
     st_stderr := st_stderr st |}.

Definition set_stdout (o : list string) (st : State) : State :=
  {| st_failures := st_failures st; st_fail_dir := st_fail_dir st;
     st_open := st_open st; st_calls := st_calls st; st_stdout := o;
     st_stderr := st_stderr st |}.

Definition set_stderr (o : list string) (st : State) : State :=
  {| st_failures := st_failures st; st_fail_dir := st_fail_dir st;
     st_open := st_open st; st_calls := st_calls st;
     st_stdout := st_stdout st; st_stderr := o |}.

Inductive result (A : Type) : Type :=
| Ret (a : A)
| Raise (r : raised).
Arguments Ret {A} a.
Arguments Raise {A} r.

(** A computation of the script: it runs from a state, returns or raises,
    and leaves a state either way. *)
Definition M (A : Type) : Type := State -> result A * State.

Definition ret {A} (a : A) : M A := fun st => (Ret a, st).

Definition raise {A} (r : raised) : M A := fun st => (Raise r, st).

Definition bind {A B} (m : M A) (k : A -> M B) : M B :=
  fun st =>
    match m st with
    | (Ret a, st') => k a st'
    | (Raise r, st') => (Raise r, st')
    end.

#[export] Instance M_ret : MRet M := @ret.
#[export] Instance M_bind : MBind M := fun A B k m => bind m k.

(** [try: m  except <catches> as e: h e] *)
Definition try_except {A} (m : M A) (catches : pyexc -> bool)
    (h : pyexc -> M A) : M A :=
  fun st =>
    match m st with
    | (Raise (Exc e), st') =>
        if catches e then h e st' else (Raise (Exc e), st')
    | other => other
    end.

Definition modify (f : State -> State) : M unit := fun st => (Ret tt, f st).
Definition get_state : M State := fun st => (Ret st, st).

Definition log_call (c : call) : M unit :=
  modify (fun st => set_calls (st_calls st ++ [c]) st).

(** The value of an oracle: returned, or raised as the exception it is. *)
Definition of_answer {A} (r : pyexc + A) : M A :=
  match r with
  | inl e => raise (Exc e)
  | inr a => ret a
  end.

(** A library call: logged, then answered by the world. *)
Definition library {A} (c : call) (r : pyexc + A) : M A :=
  log_call c ;; of_answer r.

Definition print (s : string) : M unit :=
  modify (fun st => set_stdout (st_stdout st ++ [s]) st).

Definition print_stderr (s : string) : M unit :=
  modify (fun st => set_stderr (st_stderr st ++ [s]) st).

(* ===================================================================== *)
(** * The script *)
(* ===================================================================== *)

Section Script.

Variable w : World.

(** [subprocess.run(cmd, capture_output=True, text=True, check=True,
    timeout=30)], returning [result.stdout]. *)
Definition subprocess_run (cmd : list string) : M string :=
  log_call (CallSubprocess cmd) ;;
  match w_subprocess w cmd with
  | Exited rc out err =>
      if rc =? 0 then mret out
      else raise (Exc (CalledProcessError rc cmd err))
  | TimedOut err => raise (Exc (TimeoutExpired cmd 30 err))
  | SpawnFailed msg => raise (Exc (OtherException msg))
  end.

(** [getattr(e, 'stderr', '')] *)
Definition getattr_stderr (e : pyexc) : string :=
  match e with
  | CalledProcessError _ _ err | TimeoutExpired _ _ err => err
  | _ => ""
  end.

Definition run_command (cmd : list string) : M (bool * string) :=
  try_except
    (out ← subprocess_run cmd; mret (true, strip out))
    is_CalledProcessError_or_TimeoutExpired
    (fun e =>
       let error_msg :=
         if truthy (getattr_stderr e) then getattr_stderr e else str_exc e in
       mret (false, error_msg)).

(** The loop of [get_brick_assets]: one step per line of the output. *)
Definition collect_asset (asset_files : list string) (line : string)
    : list string :=
  let line := strip line in
  if truthy line then asset_files ++ [line] else asset_files.

Definition get_brick_assets (brick_name : string)
    : M (bool * list string) :=
  '(success, output) ← run_command ["biobricks"; "assets"; brick_name];
  if negb success then mret (false, [])
  else
    let asset_files := fold_left collect_asset (split "010" output) [] in
    mret (0 <? length asset_files, asset_files)%nat.

(** [for fragment in dataset.fragments:
       row_count += fragment.metadata.num_rows] *)
Fixpoint sum_fragments (fragments : list (pyexc + Z)) (row_count : Z)
    : M Z :=
  match fragments with
  | [] => mret row_count
  | fragment :: rest =>
      num_rows ← of_answer fragment;
      sum_fragments rest (row_count + num_rows)
  end.

Definition verify_parquet_file (file_path : string) : M (bool * string) :=
  try_except
    (fragments ← library (CallParquetDataset file_path)
                         (w_parquet w file_path);
     row_count ← sum_fragments fragments 0;
     if 0 <? row_count
     then mret (true, "Parquet file has " +:+ str_of_Z row_count +:+ " rows")
     else mret (false, "Parquet file is empty (" +:+ str_of_Z row_count
                       +:+ " rows)"))
    is_Exception
    (fun e => mret (false, "Failed to load parquet file: " +:+ str_exc e)).

(** [sqlite3.connect]: the handle is open from here on. *)
Definition sqlite_connect (file_path : string) : M sqlite_db :=
  db ← library (CallSqliteConnect file_path) (w_sqlite w file_path);
  modify (fun st => set_open (file_path :: st_open st) st) ;;
  mret db.

Fixpoint remove_first (x : string) (l : list string) : list string :=
  match l with
  | [] => []
  | y :: l' => if String.eqb x y then l' else y :: remove_first x l'
  end.

(** [conn.close()] *)
Definition sqlite_close (file_path : string) : M unit :=
  log_call (CallSqliteClose file_path) ;;
  modify (fun st => set_open (remove_first file_path (st_open st)) st).

Definition tables_query : string :=
  "SELECT name FROM sqlite_master WHERE type='table';".

Definition count_query (table_name : string) : string :=
  "SELECT COUNT(*) FROM `" +:+ table_name +:+ "`;".

(** [for table_name, in tables: ... total_rows += count] *)
Fixpoint count_rows (file_path : string) (db : sqlite_db)
    (tables : list string) (total_rows : Z) : M Z :=
  match tables with
  | [] => mret total_rows
  | table_name :: rest =>
      count ← library (CallSqliteExecute file_path (count_query table_name))
                      (db_execute_count db (count_query table_name));
      count_rows file_path db rest (total_rows + count)
  end.

Definition verify_sqlite_file (file_path : string) : M (bool * string) :=
  try_except
    (db ← sqlite_connect file_path;
     tables ← library (CallSqliteExecute file_path tables_query)
                      (db_tables db);
     match tables with
     | [] =>
         sqlite_close file_path ;;
         mret (false, "SQLite file has no tables")
     | _ =>
         let table_count := length tables in
         total_rows ← count_rows file_path db tables 0;
         sqlite_close file_path ;;
         if 0 <? total_rows
         then mret (true, "SQLite file has " +:+ str_of_nat table_count
                          +:+ " tables with " +:+ str_of_Z total_rows
                          +:+ " total rows")
         else mret (false, "SQLite file has " +:+ str_of_nat table_count
                           +:+ " tables but 0 rows")
     end)
    is_Exception
    (fun e => mret (false, "Failed to access SQLite file: " +:+ str_exc e)).

Definition verify_hdt_file (file_path : string) : M (bool * string) :=
  try_except
    (triple_count ← library (CallRdfParse file_path) (w_rdf w file_path);
     if 0 <? triple_count
     then mret (true, "HDT file has " +:+ str_of_Z triple_count
                      +:+ " triples")
     else mret (false, "HDT file is empty (0 triples)"))
    is_Exception
    (fun e => mret (false, "Failed to load HDT file: " +:+ str_exc e)).

(** [os.path.getsize] *)
Definition getsize (path : string) : M Z :=
  library (CallGetsize path) (w_getsize w path).

(** [getattr(namespace, name)] *)
Definition getattr (ns : gmap string string) (name : string) : M string :=
  match ns !! name with
  | Some v => mret v
  | None => raise (Exc (AttributeError "types.SimpleNamespace" name))
  end.

Definition verify_asset_file (file_path brick_name : string)
    : M (bool * string) :=
  let file_path_lower := lower file_path in
  let brick_file := hd "" (split ":" file_path) in
  ns ← library (CallAssets brick_name) (w_assets w brick_name);
  brick_path ← getattr ns brick_file;
  if endswith file_path_lower ".parquet" then
    verify_parquet_file brick_path
  else if endswith_any file_path_lower [".sqlite"; ".sqlite3"; ".db"] then
    verify_sqlite_file brick_path
  else if endswith file_path_lower ".hdt" then
    verify_hdt_file brick_path
  else
    try_except
      (size ← getsize file_path;
       if 0 <? size then
         size' ← getsize file_path;
         mret (true, "File exists and has size " +:+ str_of_Z size'
                     +:+ " bytes")
       else mret (false, "File is empty (0 bytes)"))
      is_Exception
      (fun e => mret (false, "Failed to check file: " +:+ str_exc e)).

(** [os.makedirs('fail', exist_ok=True)], then one line appended to
    [fail/failures.txt], then the console line. *)
Definition record_failure (brick_name reason : string) : M unit :=
  modify (set_fail_dir true) ;;
  modify (fun st =>
            set_failures
              (Some (default [] (st_failures st) ++ [brick_name])%list)
              st) ;;
  print ("FAILED: " +:+ brick_name +:+ " - " +:+ reason).

(** The loop of [verify_brick] over the asset files; its result says
    whether the loop ran to its end ([true]) or returned early. *)
Fixpoint verify_assets (brick_name : string) (asset_files : list string)
    : M bool :=
  match asset_files with
  | [] => mret true
  | asset_file :: rest =>
      '(success, message) ← verify_asset_file asset_file brick_name;
      if negb success then
        record_failure brick_name
          ("Asset verification failed for " +:+ asset_file +:+ ": "
           +:+ message) ;;
        mret false
      else
        print ("  ✓ " +:+ basename asset_file +:+ ": " +:+ message) ;;
        verify_assets brick_name rest
  end.

Definition verify_brick (brick_name : string) : M bool :=
  print ("Verifying brick: " +:+ brick_name) ;;
  '(has_assets, asset_files) ← get_brick_assets brick_name;
  if negb has_assets then
    record_failure brick_name
      "No assets found or biobricks assets command failed" ;;
    mret false
  else
    print ("  Found " +:+ str_of_nat (length asset_files)
           +:+ " asset file(s)") ;;
    finished ← verify_assets brick_name asset_files;
    if finished : bool then
      print ("  ✓ " +:+ brick_name +:+ " verification passed") ;;
      mret true
    else mret false.

(** [[line.strip() for line in f
      if line.strip() and not line.startswith('#')]] *)
Fixpoint read_brick_names (lines : list string) : list string :=
  match lines with
  | [] => []
  | line :: rest =>
      if truthy (strip line) && negb (startswith line "#")
      then strip line :: read_brick_names rest
      else read_brick_names rest
  end.

(** The loop of [main]: the two counters after all the bricks. *)
Fixpoint verify_all (brick_names : list string)
    (success_count failure_count : Z) : M (Z * Z) :=
  match brick_names with
  | [] => mret (success_count, failure_count)
  | brick_name :: rest =>
      ok ← verify_brick brick_name;
      if ok : bool then verify_all rest (success_count + 1) failure_count
      else verify_all rest success_count (failure_count + 1)
  end.

Definition main : M unit :=
  match w_catalog w with
  | None =>
      print_stderr "Error: list/bricks.txt not found" ;;
      raise (SystemExit 1)
  | Some content =>
      st ← get_state;
      (if bool_decide (is_Some (st_failures st))
       then modify (set_failures None) else mret tt) ;;
      let brick_names := read_brick_names (file_lines content) in
      print ("Starting verification of " +:+ str_of_nat (length brick_names)
             +:+ " bricks...") ;;
      '(success_count, failure_count) ← verify_all brick_names 0 0;
      print (String "010" "Verification complete:") ;;
      print ("  ✓ Successful: " +:+ str_of_Z success_count) ;;
      print ("  ✗ Failed: " +:+ str_of_Z failure_count) ;;
      if 0 <? failure_count then
        print "  Failed bricks recorded in fail/failures.txt" ;;
        raise (SystemExit 1)
      else print "  All bricks verified successfully!"
  end.

End Script.

(** The exit status of the process that ran [main]: 0 when [main] returns,
    the code of [sys.exit], 1 after an uncaught exception. *)
Definition exit_status (r : result unit) : Z :=
  match r with
  | Ret _ => 0
  | Raise (SystemExit code) => code
  | Raise (Exc _) => 1
  end.

(** A fresh process: nothing open, nothing called, nothing printed. *)
Definition initial_state (failures : option (list string)) (fail_dir : bool)
    : State :=
  {| st_failures := failures; st_fail_dir := fail_dir; st_open := [];
     st_calls := []; st_stdout := []; st_stderr := [] |}.

(* ===================================================================== *)
(** * Vocabulary of the specification *)
(* ===================================================================== *)

(** A computation [m] moves the state along [R]. *)
Definition steps {A} (R : State -> State -> Prop) (m : M A) : Prop :=
  forall st, R st (snd (m st)).

(** A computation whose result does not depend on the state it starts
    from: the state only records what happened. *)
Definition state_blind {A} (m : M A) : Prop :=
  forall st1 st2, fst (m st1) = fst (m st2).

(** A computation that never leaves with [SystemExit]. *)
Definition no_exit {A} (m : M A) : Prop :=
  forall st code, fst (m st) <> Raise (SystemExit code).

(** The state relations the proofs use. *)
Definition calls_grow (st st' : State) : Prop :=
  exists new, st_calls st' = (st_calls st ++ new)%list.

Definition log_grows (st st' : State) : Prop :=
  exists new,
    default [] (st_failures st') = (default [] (st_failures st) ++ new)%list.

(** The frame of everything below [record_failure]: the failure log and
    its directory are untouched, the call log only grows. *)
Definition quiet (st st' : State) : Prop :=
  st_failures st' = st_failures st /\ st_fail_dir st' = st_fail_dir st /\
  calls_grow st st'.

(** The frame of the whole loop: besides, the failure log only grows. *)
Definition bookkeeping (st st' : State) : Prop :=
  log_grows st st' /\ calls_grow st st'.

(** The failure log after the lines [l] were appended to the log [f]:
    appending nothing does not create the file. *)
Definition append_log (l : list string) (f : option (list string))
    : option (list string) :=
  match l with
  | [] => f
  | _ => Some (default [] f ++ l)%list
  end.

(** What verifying one asset yields, observed from a fresh process. *)
Definition asset_outcome (w : World) (brick_name asset_file : string)
    : result (bool * string) :=
  fst (verify_asset_file w asset_file brick_name (initial_state None false)).

Definition asset_passes (w : World) (brick_name asset_file : string) : Prop :=
  exists message, asset_outcome w brick_name asset_file = Ret (true, message).

Definition asset_fails (w : World) (brick_name asset_file : string) : Prop :=
  exists message, asset_outcome w brick_name asset_file = Ret (false, message).

(** An oracle that answers, rather than raises. *)
Definition answers {A} (r : pyexc + A) : bool :=
  match r with inr _ => true | inl _ => false end.

(** A computation whose first library call is [c]. *)
Definition opens_with {A} (c : call) (m : M A) : Prop :=
  forall st, exists rest, st_calls (m st).2 = (st_calls st ++ c :: rest)%list.

(** A computation that returns from every state. *)
Definition always_returns {A} (m : M A) : Prop :=
  forall st, exists a st', m st = (Ret a, st').

(** The four format verifiers, and the library call with which each one
    opens its input. *)
Inductive checker : Type := Columnar | Relational | TripleStore | Generic.

Definition opening_call (k : checker) (input : string) : call :=
  match k with
  | Columnar => CallParquetDataset input
  | Relational => CallSqliteConnect input
  | TripleStore => CallRdfParse input
  | Generic => CallGetsize input
  end.

(** The else branch of [verify_asset_file], on its own. *)
Definition verify_other_file (w : World) (file_path : string)
    : M (bool * string) :=
  try_except
    (size ← getsize w file_path;
     if 0 <? size then
       size' ← getsize w file_path;
       mret (true, "File exists and has size " +:+ str_of_Z size'
                   +:+ " bytes")
     else mret (false, "File is empty (0 bytes)"))
    is_Exception
    (fun e => mret (false, "Failed to check file: " +:+ str_exc e)).

Definition run_checker (w : World) (k : checker) (input : string)
    : M (bool * string) :=
  match k with
  | Columnar => verify_parquet_file w input
  | Relational => verify_sqlite_file w input
  | TripleStore => verify_hdt_file w input
  | Generic => verify_other_file w input
  end.

(** The dispatch as the specification words it: a table of suffixes in
    their precedence, compared without regard to case; the first entry
    that matches decides, the generic checker is the fallback. *)
Definition suffix_table : list (string * checker) :=
  [ (".parquet", Columnar);
    (".sqlite", Relational); (".sqlite3", Relational); (".db", Relational);
    (".hdt", TripleStore) ].

(** [s] ends with [suf] up to case: its last characters, lowered, are
    [suf]. *)
Definition has_suffix_nocase (s suf : string) : Prop :=
  exists front back, s = front +:+ back /\ lower back = suf.

Fixpoint has_suffix_nocaseb (s suf : string) : bool :=
  if String.eqb (lower s) suf then true
  else match s with
       | EmptyString => false
       | String _ s' => has_suffix_nocaseb s' suf
       end.

Fixpoint first_match (s : string) (table : list (string * checker))
    : checker :=
  match table with
  | [] => Generic
  | (suf, k) :: table' =>
      if has_suffix_nocaseb s suf then k else first_match s table'
  end.

Definition checker_by_precedence (asset_ref : string) : checker :=
  first_match asset_ref suffix_table.

(** The input the specification gives each checker. *)
Definition checker_input (k : checker) (asset_ref resolved : string)
    : string :=
  match k with
  | Generic => asset_ref
  | _ => resolved
  end.

(** The portion of an asset reference before its first colon. *)
Inductive before_colon : string -> string -> Prop :=
| before_colon_none key :
    ~ In ":"%char (list_ascii_of_string key) ->
    before_colon key key
| before_colon_some key rest :
    ~ In ":"%char (list_ascii_of_string key) ->
    before_colon (key +:+ String ":" rest) key.

(** The catalog convention as the specification words it: a line that is
    empty after trimming is skipped, a line that starts with [#] is
    skipped, every other line, trimmed, is a brick name. *)
Inductive catalog_parse : list string -> list string -> Prop :=
| parse_end : catalog_parse [] []
| parse_blank line rest names :
    strip line = "" ->
    catalog_parse rest names ->
    catalog_parse (line :: rest) names
| parse_comment line tail rest names :
    line = String "#" tail ->
    catalog_parse rest names ->
    catalog_parse (line :: rest) names
| parse_name line rest names :
    strip line <> "" ->
    (forall tail, line <> String "#" tail) ->
    catalog_parse rest names ->
    catalog_parse (line :: rest) (strip line :: names).

(** The asset lines of a lookup output as the specification words them:
    the non-blank lines, trimmed, in order. *)
Definition asset_lines (output : string) : list string :=
  map strip (List.filter (fun line => truthy (strip line))
                         (split "010" output)).

(** What verifying a brick yields, observed from a fresh process. *)
Definition brick_outcome (w : World) (brick_name : string) : result bool :=
  fst (verify_brick w brick_name (initial_state None false)).

Definition returned_false (r : result bool) : bool :=
  match r with Ret false => true | _ => false end.

Definition returned_true (r : result bool) : bool :=
  match r with Ret true => true | _ => false end.

Definition brick_failedb (w : World) (brick_name : string) : bool :=
  returned_false (brick_outcome w brick_name).

Definition brick_passedb (w : World) (brick_name : string) : bool :=
  returned_true (brick_outcome w brick_name).

Definition brick_returns (w : World) (brick_name : string) : Prop :=
  exists ok, brick_outcome w brick_name = Ret ok.

(** How often a brick name stands in the failure log. *)
Definition recorded (brick_name : string) (st : State) : nat :=
  length (List.filter (String.eqb brick_name) (default [] (st_failures st))).

(** The state in which [main] enters its loop: the old log removed and the
    first line printed. *)
Definition loop_entry (names : list string) (st : State) : State :=
  set_stdout
    (st_stdout st ++
       ["Starting verification of " +:+ str_of_nat (length names)
        +:+ " bricks..."])
    (if bool_decide (is_Some (st_failures st))
     then set_failures None st else st).

(** The state in which [main] ends after its loop returned the counters
    [s] and [f]: the summary is printed. *)
Definition summary (s f : Z) (st : State) : State :=
  set_stdout
    (st_stdout st ++
       [String "010" "Verification complete:";
        "  ✓ Successful: " +:+ str_of_Z s;
        "  ✗ Failed: " +:+ str_of_Z f;
        if 0 <? f then "  Failed bricks recorded in fail/failures.txt"
        else "  All bricks verified successfully!"])
    st.

(** The brick names a run goes through: those of the catalog, none
    without a catalog. *)
Definition run_bricks (w : World) : list string :=
  match w_catalog w with
  | None => []
  | Some content => read_brick_names (file_lines content)
  end.

(** How often a name stands in a list of names. *)
Definition occurrences (brick_name : string) (names : list string) : nat :=
  length (List.filter (String.eqb brick_name) names).

(** The lookup of a brick, as a command line. *)
Definition lookup_cmd (brick_name : string) : list string :=
  ["biobricks"; "assets"; brick_name].

Definition is_lookup (c : call) : bool :=
  match c with CallSubprocess _ => true | _ => false end.

(** The frame of everything but the lookup itself: the calls added are no
    lookups. *)
Definition no_lookup (st st' : State) : Prop :=
  exists new,
    st_calls st' = (st_calls st ++ new)%list /\
    List.filter is_lookup new = [].

(** A sequence of library answers, read as the loops of the script read
    it: the first one that raises, and the sum of those that answer. *)
Fixpoint first_error {A} (results : list (pyexc + A)) : option pyexc :=
  match results with
  | [] => None
  | inl e :: _ => Some e
  | inr _ :: rest => first_error rest
  end.

Fixpoint total (results : list (pyexc + Z)) : Z :=
  match results with
  | [] => 0
  | inl _ :: rest => total rest
  | inr n :: rest => n + total rest
  end.

(** The answers of a database to the count queries of its tables. *)
Definition count_answers (db : sqlite_db) (tables : list string)
    : list (pyexc + Z) :=
  map (fun t => db_execute_count db (count_query t)) tables.

(** The count queries that reach the database: one per table, in order,
    up to and including the first that raises. *)
Fixpoint queries_made (path : string) (db : sqlite_db)
    (tables : list string) : list call :=
  match tables with
  | [] => []
  | t :: rest =>
      CallSqliteExecute path (count_query t) ::
      match db_execute_count db (count_query t) with
      | inl _ => []
      | inr _ => queries_made path db rest
      end
  end.

(** The bricks whose verification returns before the first one that
    raises: those the loop of [main] counts. *)
Fixpoint processed_bricks (w : World) (names : list string) : list string :=
  match names with
  | [] => []
  | b :: rest =>
      match brick_outcome w b with
      | Ret _ => b :: processed_bricks w rest
      | Raise _ => []
      end
  end.

(** A lookup that yields no asset: it exits with another status than 0,
    or times out, or prints no non-blank line. *)
Definition lookup_empty (w : World) (brick_name : string) : Prop :=
  match w_subprocess w (lookup_cmd brick_name) with
  | Exited returncode output _ => returncode <> 0 \/ asset_lines output = []
  | TimedOut _ => True
  | SpawnFailed _ => False
  end.

(** The asset references a lookup yields, none when it fails. *)
Definition looked_up (w : World) (brick_name : string) : list string :=
  match w_subprocess w (lookup_cmd brick_name) with
  | Exited returncode output _ =>
      if returncode =? 0 then asset_lines output else []
  | _ => []
  end.

(** The last two characters of a string that has at least two. *)
Fixpoint last2 (s : string) : option (ascii * ascii) :=
  match s with
  | EmptyString => None
  | String a EmptyString => None
  | String a (String b EmptyString) => Some (a, b)
  | String _ s' => last2 s'
  end.

(** A string without line feed. *)
Definition single_line (s : string) : Prop :=
  ~ In "010"%char (list_ascii_of_string s).

(** What a pass over the assets of a brick yields, asset by asset: the
    first asset that does not pass decides. *)
Fixpoint assets_outcome (w : World) (brick_name : string)
    (asset_files : list string) : result bool :=
  match asset_files with
  | [] => Ret true
  | a :: rest =>
      match asset_outcome w brick_name a with
      | Ret (true, _) => assets_outcome w brick_name rest
      | Ret (false, _) => Ret false
      | Raise r => Raise r
      end
  end.

Definition asset_raises (w : World) (brick_name asset_file : string) : Prop :=
  exists r, asset_outcome w brick_name asset_file = Raise r.

(** A [print] call that reports a failure: its text starts with the
    prefix of [record_failure]. *)
Definition reports_failure (text : string) : bool :=
  startswith text "FAILED: ".

(** The text [record_failure] prints for a brick and a reason. *)
Definition failure_report (record : string * string) : string :=
  "FAILED: " +:+ fst record +:+ " - " +:+ snd record.

(** The frame of what neither prints nor records. *)
Definition silent (st st' : State) : Prop :=
  st_stdout st' = st_stdout st /\ st_failures st' = st_failures st.

(** The console and the failure log move together: the [print] calls
    that report a failure are, in order, the reports of the records
    appended to the log.  ([st_stdout] holds one entry per [print] call.) *)
Definition console_log (st st' : State) : Prop :=
  exists out records,
    st_stdout st' = (st_stdout st ++ out)%list /\
    default [] (st_failures st') =
      (default [] (st_failures st) ++ map fst records)%list /\
    List.filter reports_failure out = map failure_report records.

(* ===================================================================== *)
(** * Worlds used in the examples *)
(* ===================================================================== *)

(** A world in which nothing is there: no catalog, every lookup exits
    with status 1, every file is missing. *)
Definition missing (what : string) : pyexc :=
  OtherException ("No such file or directory: " +:+ what).

Definition empty_world : World :=
  {| w_catalog := None;
     w_subprocess := fun _ => Exited 1 "" "brick not found";
     w_assets := fun b => inl (missing b);
     w_parquet := fun p => inl (missing p);
     w_sqlite := fun p => inl (missing p);
     w_rdf := fun p => inl (missing p);
     w_getsize := fun p => inl (missing p) |}.

(** One brick whose lookup prints a line that names no entry of the
    brick's asset map. *)
Definition world_unresolved : World :=
  {| w_catalog := Some ("b" +:+ String "010" "");
     w_subprocess := fun _ => Exited 0 ("data.csv" +:+ String "010" "") "";
     w_assets := fun _ => inr ∅;
     w_parquet := w_parquet empty_world;
     w_sqlite := w_sqlite empty_world;
     w_rdf := w_rdf empty_world;
     w_getsize := fun _ => inr 12 |}.

(** A file with a database suffix that is not a database: it opens, and
    the first query fails. *)
Definition not_a_database : sqlite_db :=
  {| db_tables := inl (OtherException "file is not a database");
     db_execute_count := fun _ => inl (OtherException "file is not a database") |}.

Definition world_not_a_db : World :=
  {| w_catalog := None;
     w_subprocess := w_subprocess empty_world;
     w_assets := w_assets empty_world;
     w_parquet := w_parquet empty_world;
     w_sqlite := fun _ => inr not_a_database;
     w_rdf := w_rdf empty_world;
     w_getsize := w_getsize empty_world |}.

(** A catalog that names the same brick on two lines; its lookup fails. *)
Definition world_duplicate : World :=
  {| w_catalog := Some ("a" +:+ String "010" ("a" +:+ String "010" ""));
     w_subprocess := w_subprocess empty_world;
     w_assets := w_assets empty_world;
     w_parquet := w_parquet empty_world;
     w_sqlite := w_sqlite empty_world;
     w_rdf := w_rdf empty_world;
     w_getsize := w_getsize empty_world |}.

(** A brick of three triple-store assets: the first holds triples, the
    second is empty, the third holds triples again. *)
Definition world_second_fails : World :=
  {| w_catalog := Some "c";
     w_subprocess := fun _ =>
       Exited 0 ("one: /c/one.hdt" +:+ String "010"
                 ("two: /c/two.hdt" +:+ String "010" "three: /c/three.hdt"))
              "";
     w_assets := fun _ =>
       inr (<["one" := "/c/one.hdt"]>
            (<["two" := "/c/two.hdt"]>
             (<["three" := "/c/three.hdt"]> ∅)));
     w_parquet := w_parquet empty_world;
     w_sqlite := w_sqlite empty_world;
     w_rdf := fun p => if String.eqb p "/c/two.hdt" then inr 0 else inr 5;
     w_getsize := w_getsize empty_world |}.

(** A catalog of comments and blank lines only. *)
Definition world_comments : World :=
  {| w_catalog :=
       Some ("# nothing to verify" +:+ String "010"
             ("   " +:+ String "010" "#"));
     w_subprocess := w_subprocess empty_world;
     w_assets := w_assets empty_world;
     w_parquet := w_parquet empty_world;
     w_sqlite := w_sqlite empty_world;
     w_rdf := w_rdf empty_world;
     w_getsize := w_getsize empty_world |}.

(** A healthy installation: a catalog with a comment, a blank line and
    two bricks; [chembl] has a parquet directory of two fragments and a
    text file, [tox21] a database of two tables. *)
Definition tox21_db : sqlite_db :=
  {| db_tables := inr ["assays"; "empty"];
     db_execute_count := fun sql =>
       if String.eqb sql "SELECT COUNT(*) FROM `assays`;" then inr 3
       else inr 0 |}.

Definition world_good : World :=
  {| w_catalog :=
       Some ("# bricks" +:+ String "010" (String "010"
             ("chembl" +:+ String "010" (" tox21 " +:+ String "010" ""))));
     w_subprocess := fun cmd =>
       if bool_decide (cmd = ["biobricks"; "assets"; "chembl"]) then
         Exited 0 ("chembl_parquet: /bricks/chembl.PARQUET" +:+ String "010"
                   (String "010" ("/bricks/readme.txt" +:+ String "010" "")))
                ""
       else if bool_decide (cmd = ["biobricks"; "assets"; "tox21"]) then
         Exited 0 "tox21_sqlite: /bricks/tox21.sqlite" ""
       else Exited 1 "" "brick not found";
     w_assets := fun b =>
       if String.eqb b "chembl" then
         inr (<["chembl_parquet" := "/bricks/chembl.parquet"]>
              (<["/bricks/readme.txt" := "/bricks/readme.txt"]> ∅))
       else if String.eqb b "tox21" then
         inr (<["tox21_sqlite" := "/bricks/tox21.sqlite"]> ∅)
       else inl (missing b);
     w_parquet := fun p =>
       if String.eqb p "/bricks/chembl.parquet" then inr [inr 4; inr 6]
       else inl (missing p);
     w_sqlite := fun p =>
       if String.eqb p "/bricks/tox21.sqlite" then inr tox21_db
       else inl (missing p);
     w_rdf := w_rdf empty_world;
     w_getsize := fun p =>
       if String.eqb p "/bricks/readme.txt" then inr 120
       else inl (missing p) |}.


(* ===================================================================== *)
(** * The monad: running, framing, blindness *)
(* ===================================================================== *)

Lemma run_bind {A B} (m : M A) (k : A -> M B) st :
  (m ≫= k) st =
  match m st with
  | (Ret a, st') => k a st'
  | (Raise r, st') => (Raise r, st')
  end.
Proof. reflexivity. Qed.

Lemma run_ret {A} (a : A) st : (mret a : M A) st = (Ret a, st).
Proof. reflexivity. Qed.

(** Running the pieces of a computation that do not depend on the world. *)
Ltac mrun :=
  repeat first
    [ rewrite run_bind
    | rewrite run_ret
    | progress cbn [print print_stderr modify log_call get_state raise
                    fst snd negb] ].

#[export] Instance calls_grow_refl : Reflexive calls_grow.
Proof. intros st. exists []. symmetry. apply app_nil_r. Qed.

#[export] Instance calls_grow_trans : Transitive calls_grow.
Proof.
  intros a b c [n1 H1] [n2 H2]. exists (n1 ++ n2)%list.
  rewrite H2, H1. symmetry. apply app_assoc.
Qed.

#[export] Instance log_grows_refl : Reflexive log_grows.
Proof. intros st. exists []. symmetry. apply app_nil_r. Qed.

#[export] Instance log_grows_trans : Transitive log_grows.
Proof.
  intros a b c [n1 H1] [n2 H2]. exists (n1 ++ n2)%list.
  rewrite H2, H1. symmetry. apply app_assoc.
Qed.

Section Closure.

Context {R : State -> State -> Prop}.
Context {R_refl : Reflexive R} {R_trans : Transitive R}.

Lemma steps_ret {A} (a : A) : steps R (mret a).
Proof. intros st. apply R_refl. Qed.

Lemma steps_raise {A} r : steps R (@raise A r).
Proof. intros st. apply R_refl. Qed.

Lemma steps_get_state : steps R get_state.
Proof. intros st. apply R_refl. Qed.

Lemma steps_of_answer {A} (r : pyexc + A) : steps R (of_answer r).
Proof. destruct r; [apply steps_raise | apply steps_ret]. Qed.

Lemma steps_bind {A B} (m : M A) (k : A -> M B) :
  steps R m -> (forall a, steps R (k a)) -> steps R (m ≫= k).
Proof.
  intros Hm Hk st. rewrite run_bind. specialize (Hm st).
  destruct (m st) as [[a | r] st']; simpl in *; [| exact Hm].
  eapply R_trans; [exact Hm | apply Hk].
Qed.

Lemma steps_try_except {A} (m : M A) catches h :
  steps R m -> (forall e, steps R (h e)) -> steps R (try_except m catches h).
Proof.
  intros Hm Hh st. unfold try_except. specialize (Hm st).
  destruct (m st) as [[a | [e | code]] st']; simpl in *; try exact Hm.
  destruct (catches e); [| exact Hm].
  eapply R_trans; [exact Hm | apply Hh].
Qed.

Lemma steps_modify f : (forall st, R st (f st)) -> steps R (modify f).
Proof. intros H st. apply H. Qed.

End Closure.

Lemma blind_ret {A} (a : A) : state_blind (mret a : M A).
Proof. intros st1 st2. reflexivity. Qed.

Lemma blind_raise {A} r : state_blind (@raise A r).
Proof. intros st1 st2. reflexivity. Qed.

Lemma blind_modify f : state_blind (modify f).
Proof. intros st1 st2. reflexivity. Qed.

Lemma blind_of_answer {A} (r : pyexc + A) : state_blind (of_answer r).
Proof. destruct r; [apply blind_raise | apply blind_ret]. Qed.

Lemma blind_bind {A B} (m : M A) (k : A -> M B) :
  state_blind m -> (forall a, state_blind (k a)) -> state_blind (m ≫= k).
Proof.
  intros Hm Hk st1 st2. rewrite !run_bind. specialize (Hm st1 st2).
  destruct (m st1) as [[a1 | r1] s1], (m st2) as [[a2 | r2] s2];
    simpl in *; try congruence.
  injection Hm as ->. apply Hk.
Qed.

Lemma blind_try_except {A} (m : M A) catches h :
  state_blind m -> (forall e, state_blind (h e)) ->
  state_blind (try_except m catches h).
Proof.
  intros Hm Hh st1 st2. unfold try_except. specialize (Hm st1 st2).
  destruct (m st1) as [[a1 | [e1 | c1]] s1], (m st2) as [[a2 | [e2 | c2]] s2];
    simpl in *; try congruence.
  injection Hm as ->. destruct (catches e2); [apply Hh | reflexivity].
Qed.

Lemma no_exit_ret {A} (a : A) : no_exit (mret a : M A).
Proof. intros st code. discriminate. Qed.

Lemma no_exit_exc {A} e : no_exit (@raise A (Exc e)).
Proof. intros st code. discriminate. Qed.

Lemma no_exit_modify f : no_exit (modify f).
Proof. intros st code. discriminate. Qed.

Lemma no_exit_of_answer {A} (r : pyexc + A) : no_exit (of_answer r).
Proof. destruct r; [apply no_exit_exc | apply no_exit_ret]. Qed.

Lemma no_exit_bind {A B} (m : M A) (k : A -> M B) :
  no_exit m -> (forall a, no_exit (k a)) -> no_exit (m ≫= k).
Proof.
  intros Hm Hk st code. rewrite run_bind. specialize (Hm st code).
  destruct (m st) as [[a | r] st']; simpl in *.
  - apply Hk.
  - congruence.
Qed.

Lemma no_exit_try_except {A} (m : M A) catches h :
  no_exit m -> (forall e, no_exit (h e)) -> no_exit (try_except m catches h).
Proof.
  intros Hm Hh st code. unfold try_except. specialize (Hm st code).
  destruct (m st) as [[a | [e | c]] st']; simpl in *; try congruence.
  destruct (catches e); [apply Hh | discriminate].
Qed.

(** One tactic walks a computation of the script along its binds, handlers
    and case distinctions, and leaves the leaves to the hint base. *)
Create HintDb script discriminated.

#[export] Hint Resolve blind_ret blind_raise blind_modify blind_of_answer
  no_exit_ret no_exit_exc no_exit_modify no_exit_of_answer : script.

Ltac walk :=
  repeat first
    [ progress intros
    | solve [eauto with script]
    | apply steps_bind | apply steps_try_except
    | apply steps_ret | apply steps_raise | apply steps_of_answer
    | apply steps_get_state
    | apply blind_bind | apply blind_try_except
    | apply no_exit_bind | apply no_exit_try_except
    | match goal with
      | |- context [match ?x with _ => _ end] =>
          match type of x with
          | _ => is_var x; destruct x
          | bool => destruct x eqn:?
          | proc_outcome => destruct x eqn:?
          | option _ => destruct x eqn:?
          end
      end ].

(* ===================================================================== *)
(** * Frames of the functions of the script *)
(* ===================================================================== *)

#[export] Instance quiet_refl : Reflexive quiet.
Proof. intros st. repeat split. reflexivity. Qed.

#[export] Instance quiet_trans : Transitive quiet.
Proof.
  intros a b c (H1 & H2 & H3) (H4 & H5 & H6). repeat split; try congruence.
  etransitivity; eassumption.
Qed.

#[export] Instance bookkeeping_refl : Reflexive bookkeeping.
Proof. intros st. split; reflexivity. Qed.

#[export] Instance bookkeeping_trans : Transitive bookkeeping.
Proof.
  intros a b c [H1 H2] [H3 H4]. split; etransitivity; eassumption.
Qed.

Lemma quiet_bookkeeping st st' : quiet st st' -> bookkeeping st st'.
Proof.
  intros (H1 & _ & H3). split; [| exact H3].
  exists []. rewrite H1. symmetry. apply app_nil_r.
Qed.

Lemma steps_quiet_bookkeeping {A} (m : M A) :
  steps quiet m -> steps bookkeeping m.
Proof. intros H st. apply quiet_bookkeeping, H. Qed.

Lemma log_call_quiet c : steps quiet (log_call c).
Proof. intros st. repeat split. exists [c]. reflexivity. Qed.

Lemma print_quiet s : steps quiet (print s).
Proof. intros st. repeat split. exists []. symmetry. apply app_nil_r. Qed.

Lemma print_stderr_quiet s : steps quiet (print_stderr s).
Proof. intros st. repeat split. exists []. symmetry. apply app_nil_r. Qed.

Lemma log_call_blind c : state_blind (log_call c).
Proof. apply blind_modify. Qed.

Lemma print_blind s : state_blind (print s).
Proof. apply blind_modify. Qed.

Lemma log_call_no_exit c : no_exit (log_call c).
Proof. apply no_exit_modify. Qed.

Lemma print_no_exit s : no_exit (print s).
Proof. apply no_exit_modify. Qed.

#[export] Hint Resolve log_call_quiet print_quiet print_stderr_quiet
  log_call_blind print_blind log_call_no_exit print_no_exit : script.

Section Frames.

Variable w : World.

Lemma library_quiet {A} c (r : pyexc + A) : steps quiet (library c r).
Proof. unfold library. walk. Qed.

Lemma library_blind {A} c (r : pyexc + A) : state_blind (library c r).
Proof. unfold library. walk. Qed.

Lemma library_no_exit {A} c (r : pyexc + A) : no_exit (library c r).
Proof. unfold library. walk. Qed.

Hint Resolve library_quiet library_blind library_no_exit : script.

Lemma subprocess_run_quiet cmd : steps quiet (subprocess_run w cmd).
Proof. unfold subprocess_run. walk. Qed.

Lemma subprocess_run_blind cmd : state_blind (subprocess_run w cmd).
Proof. unfold subprocess_run. walk. Qed.

Lemma subprocess_run_no_exit cmd : no_exit (subprocess_run w cmd).
Proof. unfold subprocess_run. walk. Qed.

Hint Resolve subprocess_run_quiet subprocess_run_blind
  subprocess_run_no_exit : script.

Lemma run_command_quiet cmd : steps quiet (run_command w cmd).
Proof. unfold run_command. walk. Qed.

Lemma run_command_blind cmd : state_blind (run_command w cmd).
Proof. unfold run_command. walk. Qed.

Lemma run_command_no_exit cmd : no_exit (run_command w cmd).
Proof. unfold run_command. walk. Qed.

Hint Resolve run_command_quiet run_command_blind run_command_no_exit
  : script.

Lemma get_brick_assets_quiet b : steps quiet (get_brick_assets w b).
Proof. unfold get_brick_assets. walk. Qed.

Lemma get_brick_assets_blind b : state_blind (get_brick_assets w b).
Proof. unfold get_brick_assets. walk. Qed.

Lemma get_brick_assets_no_exit b : no_exit (get_brick_assets w b).
Proof. unfold get_brick_assets. walk. Qed.

Lemma sum_fragments_quiet frags n : steps quiet (sum_fragments frags n).
Proof. revert n. induction frags; cbn [sum_fragments]; walk. Qed.

Lemma sum_fragments_blind frags n : state_blind (sum_fragments frags n).
Proof. revert n. induction frags; cbn [sum_fragments]; walk. Qed.

Lemma sum_fragments_no_exit frags n : no_exit (sum_fragments frags n).
Proof. revert n. induction frags; cbn [sum_fragments]; walk. Qed.

Hint Resolve sum_fragments_quiet sum_fragments_blind sum_fragments_no_exit
  : script.

Lemma verify_parquet_file_quiet p : steps quiet (verify_parquet_file w p).
Proof. unfold verify_parquet_file. walk. Qed.

Lemma verify_parquet_file_blind p : state_blind (verify_parquet_file w p).
Proof. unfold verify_parquet_file. walk. Qed.

Lemma verify_parquet_file_no_exit p : no_exit (verify_parquet_file w p).
Proof. unfold verify_parquet_file. walk. Qed.

Lemma set_open_quiet f : steps quiet (modify (fun st => set_open (f st) st)).
Proof. intros st. repeat split. exists []. symmetry. apply app_nil_r. Qed.

Hint Resolve set_open_quiet : script.

Lemma sqlite_connect_quiet p : steps quiet (sqlite_connect w p).
Proof. unfold sqlite_connect. walk. Qed.

Lemma sqlite_connect_blind p : state_blind (sqlite_connect w p).
Proof. unfold sqlite_connect. walk. Qed.

Lemma sqlite_connect_no_exit p : no_exit (sqlite_connect w p).
Proof. unfold sqlite_connect. walk. Qed.

Lemma sqlite_close_quiet p : steps quiet (sqlite_close p).
Proof. unfold sqlite_close. walk. Qed.

Lemma sqlite_close_blind p : state_blind (sqlite_close p).
Proof. unfold sqlite_close. walk. Qed.

Lemma sqlite_close_no_exit p : no_exit (sqlite_close p).
Proof. unfold sqlite_close. walk. Qed.

Lemma count_rows_quiet p db ts n : steps quiet (count_rows p db ts n).
Proof. revert n. induction ts; cbn [count_rows]; walk. Qed.

Lemma count_rows_blind p db ts n : state_blind (count_rows p db ts n).
Proof. revert n. induction ts; cbn [count_rows]; walk. Qed.

Lemma count_rows_no_exit p db ts n : no_exit (count_rows p db ts n).
Proof. revert n. induction ts; cbn [count_rows]; walk. Qed.

Hint Resolve sqlite_connect_quiet sqlite_connect_blind
  sqlite_connect_no_exit sqlite_close_quiet sqlite_close_blind
  sqlite_close_no_exit count_rows_quiet count_rows_blind
  count_rows_no_exit : script.

Lemma verify_sqlite_file_quiet p : steps quiet (verify_sqlite_file w p).
Proof. unfold verify_sqlite_file. walk. Qed.

Lemma verify_sqlite_file_blind p : state_blind (verify_sqlite_file w p).
Proof. unfold verify_sqlite_file. walk. Qed.

Lemma verify_sqlite_file_no_exit p : no_exit (verify_sqlite_file w p).
Proof. unfold verify_sqlite_file. walk. Qed.

Lemma verify_hdt_file_quiet p : steps quiet (verify_hdt_file w p).
Proof. unfold verify_hdt_file. walk. Qed.

Lemma verify_hdt_file_blind p : state_blind (verify_hdt_file w p).
Proof. unfold verify_hdt_file. walk. Qed.

Lemma verify_hdt_file_no_exit p : no_exit (verify_hdt_file w p).
Proof. unfold verify_hdt_file. walk. Qed.

Lemma verify_other_file_quiet p : steps quiet (verify_other_file w p).
Proof. unfold verify_other_file, getsize. walk. Qed.

Lemma verify_other_file_blind p : state_blind (verify_other_file w p).
Proof. unfold verify_other_file, getsize. walk. Qed.

Lemma verify_other_file_no_exit p : no_exit (verify_other_file w p).
Proof. unfold verify_other_file, getsize. walk. Qed.

Hint Resolve verify_parquet_file_quiet verify_parquet_file_blind
  verify_parquet_file_no_exit verify_sqlite_file_quiet
  verify_sqlite_file_blind verify_sqlite_file_no_exit
  verify_hdt_file_quiet verify_hdt_file_blind verify_hdt_file_no_exit
  verify_other_file_quiet verify_other_file_blind
  verify_other_file_no_exit : script.

(** The else branch of [verify_asset_file] is [verify_other_file]. *)
Lemma verify_asset_file_unfold file_path brick_name :
  verify_asset_file w file_path brick_name =
  (ns ← library (CallAssets brick_name) (w_assets w brick_name);
   brick_path ← getattr ns (hd "" (split ":" file_path));
   if endswith (lower file_path) ".parquet" then
     verify_parquet_file w brick_path
   else if endswith_any (lower file_path) [".sqlite"; ".sqlite3"; ".db"]
   then verify_sqlite_file w brick_path
   else if endswith (lower file_path) ".hdt" then
     verify_hdt_file w brick_path
   else verify_other_file w file_path).
Proof. reflexivity. Qed.

Lemma getattr_quiet ns name : steps quiet (getattr ns name).
Proof. unfold getattr. walk. Qed.

Lemma getattr_blind ns name : state_blind (getattr ns name).
Proof. unfold getattr. walk. Qed.

Lemma getattr_no_exit ns name : no_exit (getattr ns name).
Proof. unfold getattr. walk. Qed.

Hint Resolve getattr_quiet getattr_blind getattr_no_exit : script.

Lemma verify_asset_file_quiet a b : steps quiet (verify_asset_file w a b).
Proof. rewrite verify_asset_file_unfold. walk. Qed.

Lemma verify_asset_file_blind a b : state_blind (verify_asset_file w a b).
Proof. rewrite verify_asset_file_unfold. walk. Qed.

Lemma verify_asset_file_no_exit a b : no_exit (verify_asset_file w a b).
Proof. rewrite verify_asset_file_unfold. walk. Qed.

End Frames.

#[export] Hint Resolve library_quiet library_blind library_no_exit
  sum_fragments_quiet sum_fragments_blind sum_fragments_no_exit
  set_open_quiet sqlite_connect_quiet sqlite_connect_blind
  sqlite_connect_no_exit sqlite_close_quiet sqlite_close_blind
  sqlite_close_no_exit count_rows_quiet count_rows_blind count_rows_no_exit
  verify_parquet_file_quiet verify_parquet_file_blind
  verify_parquet_file_no_exit verify_sqlite_file_quiet
  verify_sqlite_file_blind verify_sqlite_file_no_exit
  verify_hdt_file_quiet verify_hdt_file_blind verify_hdt_file_no_exit
  verify_other_file_quiet verify_other_file_blind verify_other_file_no_exit
  getattr_quiet getattr_blind getattr_no_exit
  get_brick_assets_quiet get_brick_assets_blind
  get_brick_assets_no_exit verify_asset_file_quiet verify_asset_file_blind
  verify_asset_file_no_exit steps_quiet_bookkeeping : script.

(* ===================================================================== *)
(** * The failure log *)
(* ===================================================================== *)

Lemma append_log_nil f : append_log [] f = f.
Proof. reflexivity. Qed.

Lemma append_log_app l1 l2 f :
  append_log (l1 ++ l2) f = append_log l2 (append_log l1 f).
Proof.
  destruct l1 as [| x l1]; [reflexivity |].
  destruct l2 as [| y l2]; simpl.
  - rewrite app_nil_r. reflexivity.
  - rewrite <- app_assoc. reflexivity.
Qed.

Lemma append_log_default l f :
  default [] (append_log l f) = (default [] f ++ l)%list.
Proof. destruct l; simpl; [rewrite app_nil_r |]; reflexivity. Qed.

Lemma append_log_None l : append_log l None = None -> l = [].
Proof. destruct l; [reflexivity | discriminate]. Qed.

(** [record_failure] always returns; it creates the directory, appends the
    brick name to the log, prints one line, and calls no library. *)
Lemma record_failure_run brick_name reason st :
  exists st',
    record_failure brick_name reason st = (Ret tt, st') /\
    st_failures st' = append_log [brick_name] (st_failures st) /\
    st_fail_dir st' = true /\
    st_calls st' = st_calls st /\
    st_open st' = st_open st.
Proof. eexists. repeat split. Qed.

Lemma record_failure_bookkeeping b reason :
  steps bookkeeping (record_failure b reason).
Proof.
  intros st. split.
  - exists [b]. reflexivity.
  - exists []. symmetry. apply app_nil_r.
Qed.

Lemma record_failure_blind b reason : state_blind (record_failure b reason).
Proof. intros st1 st2. reflexivity. Qed.

Lemma record_failure_no_exit b reason : no_exit (record_failure b reason).
Proof. intros st code. discriminate. Qed.

#[export] Hint Resolve record_failure_bookkeeping record_failure_blind
  record_failure_no_exit : script.

Section Bookkeeping.

Variable w : World.

Lemma verify_assets_bookkeeping b assets :
  steps bookkeeping (verify_assets w b assets).
Proof. induction assets; cbn [verify_assets]; walk. Qed.

Lemma verify_assets_blind b assets : state_blind (verify_assets w b assets).
Proof. induction assets; cbn [verify_assets]; walk. Qed.

Lemma verify_assets_no_exit b assets : no_exit (verify_assets w b assets).
Proof. induction assets; cbn [verify_assets]; walk. Qed.

Hint Resolve verify_assets_bookkeeping verify_assets_blind
  verify_assets_no_exit : script.

Lemma verify_brick_bookkeeping b : steps bookkeeping (verify_brick w b).
Proof. unfold verify_brick. walk. Qed.

Lemma verify_brick_blind b : state_blind (verify_brick w b).
Proof. unfold verify_brick. walk. Qed.

Lemma verify_brick_no_exit b : no_exit (verify_brick w b).
Proof. unfold verify_brick. walk. Qed.

Hint Resolve verify_brick_bookkeeping verify_brick_blind
  verify_brick_no_exit : script.

Lemma verify_all_bookkeeping names s f :
  steps bookkeeping (verify_all w names s f).
Proof. revert s f. induction names; cbn [verify_all]; walk. Qed.

Lemma verify_all_no_exit names s f : no_exit (verify_all w names s f).
Proof. revert s f. induction names; cbn [verify_all]; walk. Qed.

(** Whatever the state, verifying a brick yields its [brick_outcome]. *)
Lemma verify_brick_outcome b st :
  fst (verify_brick w b st) = brick_outcome w b.
Proof. apply verify_brick_blind. Qed.

Lemma verify_asset_file_outcome a b st :
  fst (verify_asset_file w a b st) = asset_outcome w b a.
Proof. apply verify_asset_file_blind. Qed.

(** What a pass over the assets does to the failure log: one line for the
    brick when it returns false, nothing otherwise. *)
Lemma verify_assets_log b assets st :
  st_failures (verify_assets w b assets st).2 =
    append_log (if returned_false (verify_assets w b assets st).1
                then [b] else [])
               (st_failures st) /\
  st_fail_dir (verify_assets w b assets st).2 =
    (if returned_false (verify_assets w b assets st).1 then true
     else st_fail_dir st).
Proof.
  revert st. induction assets as [| a rest IH]; intros st.
  - split; reflexivity.
  - cbn [verify_assets]. rewrite run_bind.
    destruct (verify_asset_file_quiet w a b st) as (Hf & Hd & _).
    destruct (verify_asset_file w a b st) as [[[[|] msg] | r] st1];
      simpl in Hf, Hd.
    + cbn [negb]. rewrite run_bind. cbn [print modify].
      destruct (IH (set_stdout
                      (st_stdout st1 ++
                         ["  ✓ " +:+ basename a +:+ ": " +:+ msg]) st1))
        as [IH1 IH2].
      rewrite IH1, IH2. cbn [st_failures st_fail_dir set_stdout].
      rewrite Hf, Hd. split; reflexivity.
    + cbn [negb]. rewrite run_bind.
      destruct (record_failure_run b
                  ("Asset verification failed for " +:+ a +:+ ": " +:+ msg)
                  st1) as (st2 & -> & F1 & F2 & _).
      rewrite run_ret. cbn. rewrite F1, F2, Hf. split; reflexivity.
    + cbn. rewrite Hf, Hd. split; reflexivity.
Qed.

Lemma verify_brick_log b st :
  st_failures (verify_brick w b st).2 =
    append_log (if returned_false (verify_brick w b st).1 then [b] else [])
               (st_failures st) /\
  st_fail_dir (verify_brick w b st).2 =
    (if returned_false (verify_brick w b st).1 then true
     else st_fail_dir st).
Proof.
  unfold verify_brick. rewrite run_bind. cbn [print modify].
  set (st0 := set_stdout _ st).
  assert (Hf0 : st_failures st0 = st_failures st) by reflexivity.
  assert (Hd0 : st_fail_dir st0 = st_fail_dir st) by reflexivity.
  clearbody st0. rewrite run_bind.
  destruct (get_brick_assets_quiet w b st0) as (Hf & Hd & _).
  destruct (get_brick_assets w b st0) as [[[[|] assets] | r] st1];
    simpl in Hf, Hd.
  - cbn [negb]. rewrite run_bind. cbn [print modify].
    set (st2 := set_stdout _ st1).
    assert (Hf2 : st_failures st2 = st_failures st1) by reflexivity.
    assert (Hd2 : st_fail_dir st2 = st_fail_dir st1) by reflexivity.
    clearbody st2. rewrite run_bind.
    destruct (verify_assets_log b assets st2) as [H1 H2].
    destruct (verify_assets w b assets st2) as [[[|] | r] st3];
      cbn in H1, H2; mrun; cbn; split; congruence.
  - cbn [negb]. rewrite run_bind.
    destruct (record_failure_run b
                "No assets found or biobricks assets command failed" st1)
      as (st2 & -> & F1 & F2 & _).
    rewrite run_ret. cbn. rewrite F1, F2, Hf, Hf0. split; reflexivity.
  - cbn. split; congruence.
Qed.

End Bookkeeping.

(* ===================================================================== *)
(** * The loop of the run driver *)
(* ===================================================================== *)

Section Loop.

Variable w : World.

Lemma brick_flags_true b :
  brick_outcome w b = Ret true ->
  brick_passedb w b = true /\ brick_failedb w b = false /\ brick_returns w b.
Proof.
  intros H. unfold brick_passedb, brick_failedb, brick_returns.
  rewrite H. repeat split. exists true. reflexivity.
Qed.

Lemma brick_flags_false b :
  brick_outcome w b = Ret false ->
  brick_passedb w b = false /\ brick_failedb w b = true /\ brick_returns w b.
Proof.
  intros H. unfold brick_passedb, brick_failedb, brick_returns.
  rewrite H. repeat split. exists false. reflexivity.
Qed.

(** The loop, brick by brick: when it returns, every brick returned, the
    two counters grew by the number of bricks that passed and that failed,
    and the log grew by the failed bricks, in order; when it raises, this
    holds of the bricks before the one that raised. *)
Lemma verify_all_run names : forall s f st,
  match verify_all w names s f st with
  | (Ret (s', f'), st') =>
      Forall (brick_returns w) names /\
      s' = s + Z.of_nat (length (List.filter (brick_passedb w) names)) /\
      f' = f + Z.of_nat (length (List.filter (brick_failedb w) names)) /\
      st_failures st' =
        append_log (List.filter (brick_failedb w) names) (st_failures st) /\
      st_fail_dir st' =
        (if List.existsb (brick_failedb w) names then true
         else st_fail_dir st)
  | (Raise r, st') =>
      exists before b after,
        names = (before ++ b :: after)%list /\
        Forall (brick_returns w) before /\
        brick_outcome w b = Raise r /\
        st_failures st' =
          append_log (List.filter (brick_failedb w) before) (st_failures st) /\
        st_fail_dir st' =
          (if List.existsb (brick_failedb w) before then true
           else st_fail_dir st)
  end.
Proof.
  induction names as [| b rest IH]; intros s f st.
  - cbn. repeat split; [constructor | lia | lia].
  - cbn [verify_all]. rewrite run_bind.
    destruct (verify_brick_log w b st) as [Hlog Hdir].
    pose proof (verify_brick_outcome w b st) as Hout.
    destruct (verify_brick w b st) as [[[|] | r] st1];
      cbn [fst snd returned_false append_log] in Hlog, Hdir, Hout;
      symmetry in Hout.
    + destruct (brick_flags_true b Hout) as (Hp & Hf & Hr).
      specialize (IH (s + 1) f st1).
      destruct (verify_all w rest (s + 1) f st1) as [[[s' f'] | r] st'].
      * destruct IH as (I1 & I2 & I3 & I4 & I5).
        cbn [List.filter List.existsb]. rewrite Hp, Hf. cbn [length orb].
        repeat split; [constructor; assumption | lia | lia | congruence |].
        rewrite I5, Hdir. reflexivity.
      * destruct IH as (before & c & after & -> & I2 & I3 & I4 & I5).
        exists (b :: before), c, after.
        cbn [List.filter List.existsb]. rewrite Hf. cbn [orb].
        repeat split; [constructor; assumption | assumption | congruence |].
        rewrite I5, Hdir. reflexivity.
    + destruct (brick_flags_false b Hout) as (Hp & Hf & Hr).
      specialize (IH s (f + 1) st1).
      destruct (verify_all w rest s (f + 1) st1) as [[[s' f'] | r] st'].
      * destruct IH as (I1 & I2 & I3 & I4 & I5).
        cbn [List.filter List.existsb]. rewrite Hp, Hf. cbn [length orb].
        repeat split; [constructor; assumption | lia | lia | | ].
        -- rewrite I4, Hlog.
           change (b :: List.filter (brick_failedb w) rest)
             with ([b] ++ List.filter (brick_failedb w) rest)%list.
           rewrite append_log_app. reflexivity.
        -- rewrite I5, Hdir. destruct (existsb _ rest); reflexivity.
      * destruct IH as (before & c & after & -> & I2 & I3 & I4 & I5).
        exists (b :: before), c, after.
        cbn [List.filter List.existsb]. rewrite Hf. cbn [orb].
        repeat split; [constructor; assumption | assumption | | ].
        -- rewrite I4, Hlog.
           change (b :: List.filter (brick_failedb w) before)
             with ([b] ++ List.filter (brick_failedb w) before)%list.
           rewrite append_log_app. reflexivity.
        -- rewrite I5, Hdir. destruct (existsb _ before); reflexivity.
    + exists [], b, rest. cbn.
      repeat split; [constructor | congruence | congruence | congruence].
Qed.

(** When every brick returns, so does the loop. *)
Lemma verify_all_returns names s f st :
  Forall (brick_returns w) names ->
  exists s' f' st', verify_all w names s f st = (Ret (s', f'), st').
Proof.
  intros Hall. pose proof (verify_all_run names s f st) as H.
  destruct (verify_all w names s f st) as [[[s' f'] | r] st'].
  - eauto.
  - destruct H as (before & b & after & -> & _ & Hb & _).
    apply Forall_app in Hall as [_ Hall].
    apply Forall_cons_1 in Hall as [[ok Hok] _]. congruence.
Qed.

End Loop.

(* ===================================================================== *)
(** * Strings *)
(* ===================================================================== *)

Lemma append_empty s : "" +:+ s = s.
Proof. reflexivity. Qed.

Lemma append_String c s t : String c s +:+ t = String c (s +:+ t).
Proof. reflexivity. Qed.

Lemma append_empty_r s : s +:+ "" = s.
Proof. induction s; rewrite ?append_empty, ?append_String; congruence. Qed.

Ltac sapp := rewrite ?append_empty, ?append_String.
Ltac sapp_in H := rewrite ?append_empty, ?append_String in H.

Lemma truthy_true s : truthy s = true <-> s <> "".
Proof. destruct s; simpl; split; congruence. Qed.

Lemma truthy_false s : truthy s = false <-> s = "".
Proof. destruct s; simpl; split; congruence. Qed.

Lemma startswith_hash line :
  startswith line "#" = true <-> exists tail, line = String "#" tail.
Proof.
  unfold startswith. destruct line as [| c tail]; cbn [String.prefix].
  - split; [done | intros [t Ht]; discriminate].
  - destruct (ascii_dec "#" c) as [<- | Hne].
    + split; [eauto | intros _; destruct tail; reflexivity].
    + split; [done | intros [t Ht]; congruence].
Qed.

Lemma endswith_correct s suf :
  endswith s suf = true <-> exists front, s = front +:+ suf.
Proof.
  induction s as [| c s IH]; cbn [endswith].
  - destruct (String.eqb_spec "" suf) as [<- | Hne].
    + split; [exists ""; reflexivity | reflexivity].
    + split; [done |].
      intros [[| c front] H]; sapp_in H; congruence.
  - destruct (String.eqb_spec (String c s) suf) as [<- | Hne].
    + split; [exists ""; reflexivity | reflexivity].
    + rewrite IH. split.
      * intros [front ->]. exists (String c front). reflexivity.
      * intros [[| c' front] H]; sapp_in H; [congruence |].
        injection H as -> ->. eauto.
Qed.

Lemma lower_app s t : lower (s +:+ t) = lower s +:+ lower t.
Proof.
  induction s as [| c s IH]; sapp; cbn [lower]; sapp; [| rewrite IH];
    reflexivity.
Qed.

(** Lowering the whole string and comparing its end, as the script does,
    is comparing the end without regard to case. *)
Lemma has_suffix_nocaseb_lower s suf :
  has_suffix_nocaseb s suf = endswith (lower s) suf.
Proof.
  induction s as [| c s IH]; cbn [has_suffix_nocaseb endswith lower].
  - reflexivity.
  - rewrite IH. reflexivity.
Qed.

Lemma has_suffix_nocaseb_correct s suf :
  has_suffix_nocaseb s suf = true <-> has_suffix_nocase s suf.
Proof.
  unfold has_suffix_nocase. induction s as [| c s IH];
    cbn [has_suffix_nocaseb].
  - destruct (String.eqb_spec (lower "") suf) as [<- | Hne].
    + split; [exists "", ""; split; reflexivity | reflexivity].
    + split; [done |].
      intros (front & back & H & Hl).
      destruct front, back; sapp_in H; try discriminate.
      contradiction.
  - destruct (String.eqb_spec (lower (String c s)) suf) as [<- | Hne].
    + split; [exists "", (String c s); split; reflexivity | reflexivity].
    + rewrite IH. split.
      * intros (front & back & -> & Hl).
        exists (String c front), back. split; [reflexivity | exact Hl].
      * intros (front & back & H & Hl).
        destruct front as [| c' front]; sapp_in H.
        -- subst back. contradiction.
        -- injection H as -> ->. eauto.
Qed.

(** The chain of tests of [verify_asset_file] is the table of the
    specification read in its order. *)
Lemma checker_by_precedence_chain ref :
  checker_by_precedence ref =
  if endswith (lower ref) ".parquet" then Columnar
  else if endswith_any (lower ref) [".sqlite"; ".sqlite3"; ".db"]
       then Relational
  else if endswith (lower ref) ".hdt" then TripleStore
  else Generic.
Proof.
  unfold checker_by_precedence, suffix_table, endswith_any.
  cbn [first_match List.existsb]. rewrite !has_suffix_nocaseb_lower.
  destruct (endswith (lower ref) ".parquet"),
           (endswith (lower ref) ".sqlite"),
           (endswith (lower ref) ".sqlite3"),
           (endswith (lower ref) ".db"),
           (endswith (lower ref) ".hdt"); reflexivity.
Qed.

Lemma checker_by_precedence_nocase ref ref' :
  lower ref = lower ref' ->
  checker_by_precedence ref = checker_by_precedence ref'.
Proof. intros H. rewrite !checker_by_precedence_chain, H. reflexivity. Qed.

Lemma split_nonempty sep s : split sep s <> [].
Proof.
  induction s as [| c s IH]; cbn [split]; [discriminate |].
  destruct (Ascii.eqb c sep); [discriminate |].
  destruct (split sep s); [contradiction | discriminate].
Qed.

(** [file_path.split(':')[0]] is the portion before the first colon. *)
Lemma split_before_colon ref key :
  before_colon ref key -> hd "" (split ":" ref) = key.
Proof.
  assert (Hgo : forall key tail,
             ~ In ":"%char (list_ascii_of_string key) ->
             (tail = "" \/ exists rest, tail = String ":" rest) ->
             hd "" (split ":" (key +:+ tail)) = key).
  { clear. induction key as [| c key IH]; intros tail Hno Htail.
    - destruct Htail as [-> | [rest ->]]; reflexivity.
    - sapp. cbn [split].
      destruct (Ascii.eqb_spec c ":") as [-> | Hc].
      + exfalso. apply Hno. left. reflexivity.
      + assert (Hno' : ~ In ":"%char (list_ascii_of_string key)).
        { intros Hin. apply Hno. right. exact Hin. }
        specialize (IH tail Hno' Htail).
        pose proof (split_nonempty ":" (key +:+ tail)) as Hne.
        destruct (split ":" (key +:+ tail)) as [| x xs]; [contradiction |].
        simpl in IH |- *. rewrite IH. reflexivity. }
  intros H. destruct H as [key Hno | key rest Hno].
  - rewrite <- (Hgo key "" Hno (or_introl eq_refl)) at 2.
    f_equal. f_equal. clear.
    symmetry. apply append_empty_r.
  - apply Hgo; eauto.
Qed.

(** ... and there always is such a portion. *)
Lemma before_colon_total ref : before_colon ref (hd "" (split ":" ref)).
Proof.
  induction ref as [| c ref IH]; cbn [split].
  - apply before_colon_none. simpl. tauto.
  - destruct (Ascii.eqb_spec c ":") as [-> | Hc].
    + apply (before_colon_some "" ref). simpl. tauto.
    + pose proof (split_nonempty ":" ref) as Hne.
      destruct (split ":" ref) as [| x xs]; [contradiction |].
      simpl in IH |- *.
      inversion IH as [key Hno Heq1 Heq2 | key rest Hno Heq1 Heq2]; subst.
      * apply before_colon_none. simpl. intros [H | H]; [congruence | tauto].
      * apply (before_colon_some (String c x) rest).
        simpl. intros [H | H]; [congruence | tauto].
Qed.

(** The loop of [get_brick_assets] collects the non-blank lines, trimmed,
    in their order. *)
Lemma fold_collect_asset lines acc :
  fold_left collect_asset lines acc =
  (acc ++ map strip (List.filter (fun line => truthy (strip line)) lines))%list.
Proof.
  revert acc. induction lines as [| line lines IH]; intros acc;
    cbn [fold_left List.filter].
  - rewrite app_nil_r. reflexivity.
  - rewrite IH. unfold collect_asset.
    destruct (truthy (strip line)); cbn [map].
    + rewrite <- app_assoc. reflexivity.
    + reflexivity.
Qed.

Lemma asset_lines_nonblank output :
  Forall (fun line => line <> "") (asset_lines output).
Proof.
  unfold asset_lines. apply Forall_map, Forall_forall.
  intros line Hin. apply list_elem_of_In, filter_In in Hin as [_ Hin].
  apply truthy_true, Hin.
Qed.

(** The comprehension of [main] follows the catalog convention, and the
    convention determines the names. *)
Lemma read_brick_names_parse lines :
  catalog_parse lines (read_brick_names lines).
Proof.
  induction lines as [| line rest IH]; cbn [read_brick_names].
  - constructor.
  - destruct (truthy (strip line)) eqn:Ht; cbn [andb].
    + destruct (startswith line "#") eqn:Hs; cbn [negb].
      * apply startswith_hash in Hs as [tail ->].
        eapply parse_comment; [reflexivity | exact IH].
      * apply parse_name; [apply truthy_true, Ht | | exact IH].
        intros tail ->.
        assert (startswith (String "#" tail) "#" = true)
          by (apply startswith_hash; eauto).
        congruence.
    + apply parse_blank; [apply truthy_false, Ht | exact IH].
Qed.

Lemma catalog_parse_unique lines names :
  catalog_parse lines names -> names = read_brick_names lines.
Proof.
  induction 1 as [| line rest names Hblank _ IH
                  | line tail rest names Hhash _ IH
                  | line rest names Hne Hnh _ IH]; cbn [read_brick_names].
  - reflexivity.
  - apply truthy_false in Hblank. rewrite Hblank. exact IH.
  - assert (Hs : startswith line "#" = true)
      by (apply startswith_hash; eauto).
    rewrite Hs, andb_false_r. exact IH.
  - apply truthy_true in Hne. rewrite Hne.
    destruct (startswith line "#") eqn:Hs.
    + apply startswith_hash in Hs as [tail ->]. exfalso. eapply Hnh; eauto.
    + cbn. rewrite IH. reflexivity.
Qed.

(** Trimming the whole output first, as [run_command] does, changes
    nothing to its asset lines. *)
Lemma rstrip_lstrip s : rstrip (lstrip s) = lstrip (rstrip s).
Proof.
  induction s as [| c s IH]; [reflexivity |].
  cbn [lstrip rstrip]. destruct (isspace c) eqn:Hc.
  - rewrite IH. destruct (rstrip s); cbn [lstrip]; rewrite ?Hc; reflexivity.
  - destruct (rstrip s) eqn:Hr; cbn [lstrip rstrip]; rewrite ?Hc, ?Hr;
      reflexivity.
Qed.

Lemma rstrip_strip a b : rstrip a = rstrip b -> strip a = strip b.
Proof. unfold strip. rewrite !rstrip_lstrip. congruence. Qed.

Lemma strip_space c s : isspace c = true -> strip (String c s) = strip s.
Proof. intros Hc. unfold strip. cbn [lstrip]. rewrite Hc. reflexivity. Qed.

Lemma asset_lines_cons_space c s :
  isspace c = true ->
  asset_lines (String c s) = asset_lines s.
Proof.
  intros Hc. unfold asset_lines. cbn [split].
  destruct (Ascii.eqb_spec c "010") as [-> | Hnl].
  - reflexivity.
  - pose proof (split_nonempty "010" s) as Hne.
    destruct (split "010" s) as [| x xs]; [contradiction |].
    cbn [List.filter]. rewrite (strip_space c x Hc).
    destruct (truthy (strip x)); cbn [map]; rewrite ?(strip_space c x Hc);
      reflexivity.
Qed.

Lemma asset_lines_lstrip s : asset_lines (lstrip s) = asset_lines s.
Proof.
  induction s as [| c s IH]; [reflexivity |].
  cbn [lstrip]. destruct (isspace c) eqn:Hc; [| reflexivity].
  rewrite IH. symmetry. apply asset_lines_cons_space, Hc.
Qed.

Lemma rstrip_lines s :
  exists x xs x' xs',
    split "010" s = x :: xs /\ split "010" (rstrip s) = x' :: xs' /\
    rstrip x' = rstrip x /\
    map strip (List.filter (fun l => truthy (strip l)) xs') =
    map strip (List.filter (fun l => truthy (strip l)) xs).
Proof.
  induction s as [| c s IH].
  - exists "", [], "", []. repeat split.
  - destruct IH as (x0 & xs0 & x0' & xs0' & Hs & Hr & Hx & Hxs).
    assert (Hsplit : forall t y ys,
              split "010" t = y :: ys ->
              split "010" (String c t) =
              if Ascii.eqb c "010" then "" :: y :: ys
              else String c y :: ys).
    { intros t y ys Ht. cbn [split]. rewrite Ht. reflexivity. }
    rewrite (Hsplit s x0 xs0 Hs).
    assert (Hrstrip : rstrip (String c s) =
              match rstrip s with
              | "" => if isspace c then "" else String c ""
              | String c' r => String c (String c' r)
              end) by reflexivity.
    rewrite Hrstrip. clear Hrstrip.
    destruct (rstrip s) as [| c' r] eqn:Hrs.
    + cbn [split] in Hr. injection Hr as <- <-. cbn [rstrip] in Hx.
      destruct (isspace c) eqn:Hc.
      * destruct (Ascii.eqb_spec c "010") as [-> | Hnl].
        -- exists "", (x0 :: xs0), "", []. repeat split.
           cbn [List.filter]. rewrite <- (rstrip_strip "" x0 Hx).
           cbn. exact Hxs.
        -- exists (String c x0), xs0, "", []. repeat split; [| exact Hxs].
           cbn [rstrip]. rewrite <- Hx, Hc. reflexivity.
      * assert (Hnl : Ascii.eqb c "010" = false).
        { destruct (Ascii.eqb_spec c "010") as [-> | Hnl]; [| reflexivity].
          discriminate Hc. }
        rewrite Hnl. cbn [split]. rewrite Hnl.
        exists (String c x0), xs0, (String c ""), []. repeat split; [| exact Hxs].
        cbn [rstrip]. rewrite <- Hx, Hc. reflexivity.
    + rewrite (Hsplit (String c' r) x0' xs0' Hr).
      destruct (Ascii.eqb c "010").
      * exists "", (x0 :: xs0), "", (x0' :: xs0'). repeat split.
        cbn [List.filter]. rewrite (rstrip_strip x0' x0 Hx).
        destruct (truthy (strip x0)); cbn [map];
          rewrite Hxs, ?(rstrip_strip x0' x0 Hx); reflexivity.
      * exists (String c x0), xs0, (String c x0'), xs0'.
        repeat split; [| exact Hxs]. cbn [rstrip]. rewrite Hx. reflexivity.
Qed.

Lemma asset_lines_rstrip s : asset_lines (rstrip s) = asset_lines s.
Proof.
  destruct (rstrip_lines s) as (x & xs & x' & xs' & Hs & Hr & Hx & Hxs).
  unfold asset_lines. rewrite Hs, Hr. cbn [List.filter].
  rewrite (rstrip_strip x' x Hx).
  destruct (truthy (strip x)); cbn [map];
    rewrite Hxs, ?(rstrip_strip x' x Hx); reflexivity.
Qed.

Lemma asset_lines_strip s : asset_lines (strip s) = asset_lines s.
Proof. unfold strip. rewrite asset_lines_rstrip. apply asset_lines_lstrip. Qed.

Lemma asset_lines_nonempty output :
  asset_lines output <> [] <->
  exists line, In line (split "010" output) /\ strip line <> "".
Proof.
  unfold asset_lines. split.
  - intros Hne.
    destruct (List.filter (fun line => truthy (strip line))
                (split "010" output)) as [| line rest] eqn:Hf;
      [contradiction |].
    assert (Hin : In line (List.filter (fun line => truthy (strip line))
                             (split "010" output)))
      by (rewrite Hf; left; reflexivity).
    apply filter_In in Hin as [Hin Ht]. exists line.
    split; [exact Hin | apply truthy_true, Ht].
  - intros (line & Hin & Hne) Hnil.
    assert (Hf : In line (List.filter (fun line => truthy (strip line))
                            (split "010" output)))
      by (apply filter_In; split; [exact Hin | apply truthy_true, Hne]).
    destruct (List.filter (fun line => truthy (strip line))
                (split "010" output)); [contradiction | discriminate].
Qed.

(* ===================================================================== *)
(** * The asset resolver *)
(* ===================================================================== *)

Lemma nonempty_length {A} (l : list A) :
  (0 <? length l)%nat = bool_decide (l <> []).
Proof. destruct l; reflexivity. Qed.

(** C7.  For every brick name the asset resolver answers by the outcome of
    the lookup: a non-zero exit and a timeout both give (false, empty list);
    an exit with status 0 gives the non-blank lines of the output, trimmed,
    in the order of the external tool, and ok is true exactly when the
    output has at least one non-blank line.  (A lookup that cannot be
    started at all is no answer of the resolver: its exception passes
    through.)  The resolver makes one library call, the lookup. *)
Theorem get_brick_assets_contract (w : World) (brick_name : string)
    (st : State) :
  match w_subprocess w (lookup_cmd brick_name) with
  | Exited returncode output _ =>
      if returncode =? 0 then
        (get_brick_assets w brick_name st).1 =
          Ret (bool_decide (asset_lines output <> []), asset_lines output) /\
        (asset_lines output <> [] <->
         exists line, In line (split "010" output) /\ strip line <> "")
      else (get_brick_assets w brick_name st).1 = Ret (false, [])
  | TimedOut _ => (get_brick_assets w brick_name st).1 = Ret (false, [])
  | SpawnFailed msg =>
      (get_brick_assets w brick_name st).1 = Raise (Exc (OtherException msg))
  end /\
  Forall (fun line => line <> "")
    match (get_brick_assets w brick_name st).1 with
    | Ret (_, asset_files) => asset_files
    | Raise _ => []
    end /\
  st_calls (get_brick_assets w brick_name st).2 =
    (st_calls st ++ [CallSubprocess (lookup_cmd brick_name)])%list.
Proof.
  unfold get_brick_assets, run_command, try_except, subprocess_run,
    lookup_cmd.
  mrun.
  destruct (w_subprocess w ["biobricks"; "assets"; brick_name])
    as [rc out err | err | msg].
  - destruct (rc =? 0); mrun; cbn [fst snd st_calls set_calls].
    + rewrite fold_collect_asset, nonempty_length. cbn [app].
      fold (asset_lines (strip out)). rewrite asset_lines_strip.
      repeat split; try apply asset_lines_nonempty.
      apply asset_lines_nonblank.
    + repeat split. constructor.
  - mrun. cbn. repeat split. constructor.
  - mrun. cbn. repeat split. constructor.
Qed.

(* ===================================================================== *)
(** * Dispatch to the format verifiers *)
(* ===================================================================== *)

Lemma quiet_calls {A} (m : M A) :
  steps quiet m ->
  forall st, exists new, st_calls (m st).2 = (st_calls st ++ new)%list.
Proof. intros H st. destruct (H st) as (_ & _ & Hc). exact Hc. Qed.

Lemma opens_with_library {A B} c (r : pyexc + A) (k : A -> M B) :
  (forall a, steps quiet (k a)) -> opens_with c (library c r ≫= k).
Proof.
  intros Hk st. unfold library. mrun. destruct r as [e | a]; cbn [of_answer].
  - mrun. exists []. reflexivity.
  - mrun.
    destruct (quiet_calls (k a) (Hk a)
                (set_calls (st_calls st ++ [c]) st)) as [new Hnew].
    exists new. rewrite Hnew. cbn [st_calls set_calls].
    rewrite <- app_assoc. reflexivity.
Qed.

Lemma opens_with_bind {A B} c (m : M A) (k : A -> M B) :
  opens_with c m -> (forall a, steps quiet (k a)) -> opens_with c (m ≫= k).
Proof.
  intros Hm Hk st. rewrite run_bind. destruct (Hm st) as [rest Hrest].
  destruct (m st) as [[a | r] st1]; cbn [snd] in Hrest |- *.
  - destruct (quiet_calls (k a) (Hk a) st1) as [new Hnew].
    exists (rest ++ new)%list. rewrite Hnew, Hrest, <- app_assoc.
    reflexivity.
  - eauto.
Qed.

Lemma opens_with_try_except {A} c (m : M A) catches h :
  opens_with c m -> (forall e, steps quiet (h e)) ->
  opens_with c (try_except m catches h).
Proof.
  intros Hm Hh st. unfold try_except. destruct (Hm st) as [rest Hrest].
  destruct (m st) as [[a | [e | code]] st1]; cbn [snd] in Hrest |- *;
    eauto.
  destruct (catches e); cbn [snd]; eauto.
  destruct (quiet_calls (h e) (Hh e) st1) as [new Hnew].
  exists (rest ++ new)%list. rewrite Hnew, Hrest, <- app_assoc. reflexivity.
Qed.

(** Each checker opens the input it is given. *)
Lemma run_checker_opens w k input :
  opens_with (opening_call k input) (run_checker w k input).
Proof.
  destruct k; cbn [run_checker opening_call].
  - unfold verify_parquet_file.
    apply opens_with_try_except; [apply opens_with_library |]; walk.
  - unfold verify_sqlite_file.
    apply opens_with_try_except; [apply opens_with_bind |]; try solve [walk].
    unfold sqlite_connect. apply opens_with_library. walk.
  - unfold verify_hdt_file.
    apply opens_with_try_except; [apply opens_with_library |]; walk.
  - unfold verify_other_file, getsize.
    apply opens_with_try_except; [apply opens_with_library |]; walk.
Qed.

(** Once the asset reference is resolved, [verify_asset_file] is the
    checker that the suffix of the reference selects, run on the resolved
    path, or on the reference itself for the generic checker. *)
Lemma verify_asset_file_resolved w asset_ref brick_name ns key path st :
  w_assets w brick_name = inr ns ->
  before_colon asset_ref key ->
  ns !! key = Some path ->
  verify_asset_file w asset_ref brick_name st =
  run_checker w (checker_by_precedence asset_ref)
    (checker_input (checker_by_precedence asset_ref) asset_ref path)
    (set_calls (st_calls st ++ [CallAssets brick_name]) st).
Proof.
  intros Hns Hkey Hpath. rewrite verify_asset_file_unfold.
  rewrite (split_before_colon _ _ Hkey), Hns. unfold library. mrun.
  cbn [of_answer]. mrun. unfold getattr. rewrite Hpath. mrun.
  rewrite checker_by_precedence_chain.
  destruct (endswith (lower asset_ref) ".parquet"); [reflexivity |].
  destruct (endswith_any (lower asset_ref) [".sqlite"; ".sqlite3"; ".db"]);
    [reflexivity |].
  destruct (endswith (lower asset_ref) ".hdt"); reflexivity.
Qed.

(** C2.  For every asset reference whose portion before the colon names an
    entry of the brick's asset map: after the lookup in the map, the next
    library call of the brick verifier is the opening call of the checker
    chosen by the suffix of the original reference, and that call receives
    the resolved path for the columnar, relational and triple-store
    checkers and the original, unresolved reference for the generic one. *)
Theorem verify_asset_file_checker_input (w : World)
    (asset_ref brick_name : string) (ns : gmap string string)
    (key path : string) (st : State) :
  w_assets w brick_name = inr ns ->
  before_colon asset_ref key ->
  ns !! key = Some path ->
  exists rest,
    st_calls (verify_asset_file w asset_ref brick_name st).2 =
    (st_calls st ++
       CallAssets brick_name ::
       match checker_by_precedence asset_ref with
       | Columnar => CallParquetDataset path
       | Relational => CallSqliteConnect path
       | TripleStore => CallRdfParse path
       | Generic => CallGetsize asset_ref
       end :: rest)%list.
Proof.
  intros Hns Hkey Hpath.
  rewrite (verify_asset_file_resolved w _ _ ns key path st Hns Hkey Hpath).
  destruct (run_checker_opens w (checker_by_precedence asset_ref)
              (checker_input (checker_by_precedence asset_ref) asset_ref path)
              (set_calls (st_calls st ++ [CallAssets brick_name]) st))
    as [rest Hrest].
  exists rest. rewrite Hrest. cbn [st_calls set_calls].
  rewrite <- app_assoc.
  destruct (checker_by_precedence asset_ref); reflexivity.
Qed.

Lemma world_good_chembl_assets :
  w_assets world_good "chembl" =
  inr (<["chembl_parquet" := "/bricks/chembl.parquet"]>
       (<["/bricks/readme.txt" := "/bricks/readme.txt"]> ∅)).
Proof. reflexivity. Qed.

Lemma verify_asset_file_checker_input_witness :
  exists rest,
    st_calls (verify_asset_file world_good
                "chembl_parquet: /bricks/chembl.PARQUET" "chembl"
                (initial_state None false)).2 =
    ([] ++ CallAssets "chembl" ::
       CallParquetDataset "/bricks/chembl.parquet" :: rest)%list.
Proof.
  apply (verify_asset_file_checker_input world_good
           "chembl_parquet: /bricks/chembl.PARQUET" "chembl" _
           "chembl_parquet" "/bricks/chembl.parquet"
           (initial_state None false) world_good_chembl_assets).
  - apply (before_colon_some "chembl_parquet" " /bricks/chembl.PARQUET").
    vm_compute. intuition discriminate.
  - vm_compute. reflexivity.
Defined.

(** What the table of suffixes means, entry by entry. *)
Lemma checker_by_precedence_cases ref :
  (has_suffix_nocase ref ".parquet" ->
   checker_by_precedence ref = Columnar) /\
  (~ has_suffix_nocase ref ".parquet" ->
   has_suffix_nocase ref ".sqlite" \/ has_suffix_nocase ref ".sqlite3" \/
   has_suffix_nocase ref ".db" ->
   checker_by_precedence ref = Relational) /\
  (~ has_suffix_nocase ref ".parquet" ->
   ~ has_suffix_nocase ref ".sqlite" -> ~ has_suffix_nocase ref ".sqlite3" ->
   ~ has_suffix_nocase ref ".db" ->
   has_suffix_nocase ref ".hdt" ->
   checker_by_precedence ref = TripleStore) /\
  (~ has_suffix_nocase ref ".parquet" ->
   ~ has_suffix_nocase ref ".sqlite" -> ~ has_suffix_nocase ref ".sqlite3" ->
   ~ has_suffix_nocase ref ".db" ->
   ~ has_suffix_nocase ref ".hdt" ->
   checker_by_precedence ref = Generic).
Proof.
  unfold checker_by_precedence, suffix_table. cbn [first_match].
  pose proof (has_suffix_nocaseb_correct ref ".parquet") as Hp.
  pose proof (has_suffix_nocaseb_correct ref ".sqlite") as Hs.
  pose proof (has_suffix_nocaseb_correct ref ".sqlite3") as Hs3.
  pose proof (has_suffix_nocaseb_correct ref ".db") as Hd.
  pose proof (has_suffix_nocaseb_correct ref ".hdt") as Hh.
  destruct (has_suffix_nocaseb ref ".parquet"),
           (has_suffix_nocaseb ref ".sqlite"),
           (has_suffix_nocaseb ref ".sqlite3"),
           (has_suffix_nocaseb ref ".db"),
           (has_suffix_nocaseb ref ".hdt");
    intuition (try reflexivity; try discriminate).
Qed.

(** C8.  For every asset reference (resolved in the brick's asset map),
    the format verifier that runs is chosen by the suffix of the reference,
    compared without regard to case, in a fixed precedence: [.parquet]
    selects the columnar checker; otherwise [.sqlite], [.sqlite3] or [.db]
    select the relational checker; otherwise [.hdt] selects the
    triple-store checker; otherwise the generic fallback checker runs. *)
Theorem verify_asset_file_dispatch (w : World)
    (asset_ref brick_name : string) (ns : gmap string string)
    (key path : string) (st : State) :
  w_assets w brick_name = inr ns ->
  before_colon asset_ref key ->
  ns !! key = Some path ->
  let st1 := set_calls (st_calls st ++ [CallAssets brick_name]) st in
  verify_asset_file w asset_ref brick_name st =
    (if has_suffix_nocaseb asset_ref ".parquet" then
       verify_parquet_file w path st1
     else if has_suffix_nocaseb asset_ref ".sqlite"
             || has_suffix_nocaseb asset_ref ".sqlite3"
             || has_suffix_nocaseb asset_ref ".db" then
       verify_sqlite_file w path st1
     else if has_suffix_nocaseb asset_ref ".hdt" then
       verify_hdt_file w path st1
     else verify_other_file w asset_ref st1) /\
  (forall suf, has_suffix_nocaseb asset_ref suf = true <->
               has_suffix_nocase asset_ref suf) /\
  (forall other_ref suf, lower other_ref = lower asset_ref ->
     has_suffix_nocaseb other_ref suf = has_suffix_nocaseb asset_ref suf).
Proof.
  intros Hns Hkey Hpath st1. split; [| split].
  - rewrite (verify_asset_file_resolved w _ _ ns key path st Hns Hkey Hpath).
    fold st1. unfold checker_by_precedence, suffix_table.
    cbn [first_match].
    destruct (has_suffix_nocaseb asset_ref ".parquet"); [reflexivity |].
    destruct (has_suffix_nocaseb asset_ref ".sqlite"); [reflexivity |].
    destruct (has_suffix_nocaseb asset_ref ".sqlite3"); [reflexivity |].
    destruct (has_suffix_nocaseb asset_ref ".db"); [reflexivity |].
    destruct (has_suffix_nocaseb asset_ref ".hdt"); reflexivity.
  - intros suf. apply has_suffix_nocaseb_correct.
  - intros other_ref suf Hl. rewrite !has_suffix_nocaseb_lower, Hl.
    reflexivity.
Qed.

Lemma verify_asset_file_dispatch_witness :
  verify_asset_file world_good "chembl_parquet: /bricks/chembl.PARQUET"
    "chembl" (initial_state None false) =
  verify_parquet_file world_good "/bricks/chembl.parquet"
    (set_calls [CallAssets "chembl"] (initial_state None false)).
Proof.
  apply (verify_asset_file_dispatch world_good
           "chembl_parquet: /bricks/chembl.PARQUET" "chembl" _
           "chembl_parquet" "/bricks/chembl.parquet"
           (initial_state None false) world_good_chembl_assets).
  - apply (before_colon_some "chembl_parquet" " /bricks/chembl.PARQUET").
    vm_compute. intuition discriminate.
  - vm_compute. reflexivity.
Defined.

(* ===================================================================== *)
(** * Failure isolation *)
(* ===================================================================== *)

Lemma try_except_Exception_returns {A} (m : M A) h :
  no_exit m -> (forall e, always_returns (h e)) ->
  always_returns (try_except m is_Exception h).
Proof.
  intros Hm Hh st. unfold try_except. specialize (Hm st).
  destruct (m st) as [[a | [e | code]] st1]; cbn [fst] in Hm.
  - eauto.
  - cbn [is_Exception]. apply Hh.
  - exfalso. eapply Hm. reflexivity.
Qed.

Lemma always_returns_ret {A} (a : A) : always_returns (mret a : M A).
Proof. intros st. eauto. Qed.

(** The four format verifiers contain their failures: whatever the library
    does, they return a pair. *)
Lemma run_checker_returns w k input : always_returns (run_checker w k input).
Proof.
  destruct k; cbn [run_checker];
    [ unfold verify_parquet_file | unfold verify_sqlite_file
    | unfold verify_hdt_file | unfold verify_other_file, getsize ];
    (apply try_except_Exception_returns;
     [walk | intros e; apply always_returns_ret]).
Qed.

(** [verify_asset_file] itself does not: it raises exactly when the asset
    reference cannot be resolved. *)
Lemma verify_asset_file_raises_iff w asset_ref brick_name st :
  (exists r st', verify_asset_file w asset_ref brick_name st = (Raise r, st'))
  <->
  match w_assets w brick_name with
  | inl _ => True
  | inr ns => ns !! hd "" (split ":" asset_ref) = None
  end.
Proof.
  destruct (w_assets w brick_name) as [e | ns] eqn:Hns.
  - split; [trivial | intros _].
    rewrite verify_asset_file_unfold, Hns. unfold library. mrun.
    cbn [of_answer]. mrun. eauto.
  - destruct (ns !! hd "" (split ":" asset_ref)) as [path |] eqn:Hpath.
    + split; [| discriminate]. intros (r & st' & H).
      rewrite (verify_asset_file_resolved w _ _ ns _ path st Hns
                 (before_colon_total asset_ref) Hpath) in H.
      destruct (run_checker_returns w (checker_by_precedence asset_ref)
                  (checker_input (checker_by_precedence asset_ref)
                     asset_ref path)
                  (set_calls (st_calls st ++ [CallAssets brick_name]) st))
        as (a & st2 & Hret).
      congruence.
    + split; [reflexivity | intros _].
      rewrite verify_asset_file_unfold, Hns. unfold library. mrun.
      cbn [of_answer]. mrun. unfold getattr. rewrite Hpath. mrun. eauto.
Qed.

(** C1 (the claim fails on the code).  The asset reference [data.csv] of
    brick [b] names no entry of the brick's asset map: the lookup in the
    map raises [AttributeError] before any [try] is entered, the exception
    leaves [verify_asset_file], and with it the whole run, although the
    catalog is there. *)
Theorem verify_asset_file_resolution_error_escapes :
  verify_asset_file world_unresolved "data.csv" "b"
    (initial_state None false) =
    (Raise (Exc (AttributeError "types.SimpleNamespace" "data.csv")),
     set_calls [CallAssets "b"] (initial_state None false)) /\
  w_catalog world_unresolved = Some ("b" +:+ String "010" "") /\
  (main world_unresolved (initial_state None false)).1 =
    Raise (Exc (AttributeError "types.SimpleNamespace" "data.csv")).
Proof. repeat split; vm_compute; reflexivity. Qed.

(* ===================================================================== *)
(** * The database handle *)
(* ===================================================================== *)

Lemma remove_first_head x l : remove_first x (x :: l) = l.
Proof. cbn [remove_first]. rewrite String.eqb_refl. reflexivity. Qed.

Lemma count_rows_open p db tables : forall n st,
  st_open (count_rows p db tables n st).2 = st_open st.
Proof.
  induction tables as [| t tables IH]; intros n st; cbn [count_rows].
  - reflexivity.
  - unfold library. mrun.
    destruct (db_execute_count db (count_query t)) as [e | c];
      cbn [of_answer]; mrun; [reflexivity |].
    rewrite IH. reflexivity.
Qed.

Lemma count_rows_result p db tables : forall n st,
  (exists total, (count_rows p db tables n st).1 = Ret total) <->
  forallb (fun t => answers (db_execute_count db (count_query t))) tables
  = true.
Proof.
  induction tables as [| t tables IH]; intros n st;
    cbn [count_rows forallb].
  - split; [reflexivity | eauto].
  - unfold library. mrun.
    destruct (db_execute_count db (count_query t)) as [e | c];
      cbn [of_answer]; mrun.
    + cbn [answers andb]. split; [intros [total H] |]; discriminate.
    + cbn [answers andb]. apply IH.
Qed.

(** Where [verify_sqlite_file] leaves the handle: closed when the file
    cannot be opened at all (there is none) and when every query answers;
    open when a query raises. *)
Lemma verify_sqlite_file_handle w p st :
  st_open (verify_sqlite_file w p st).2 =
  match w_sqlite w p with
  | inl _ => st_open st
  | inr db =>
      match db_tables db with
      | inl _ => p :: st_open st
      | inr tables =>
          if forallb (fun t => answers (db_execute_count db (count_query t)))
                     tables
          then st_open st else p :: st_open st
      end
  end.
Proof.
  unfold verify_sqlite_file, try_except, sqlite_connect, library. mrun.
  destruct (w_sqlite w p) as [e | db]; cbn [of_answer]; mrun;
    [reflexivity |].
  destruct (db_tables db) as [e | tables]; cbn [of_answer]; mrun;
    [reflexivity |].
  destruct tables as [| t tables].
  - unfold sqlite_close. mrun. cbn. apply remove_first_head.
  - set (tabs := t :: tables). mrun. set (st1 := set_calls _ _).
    pose proof (count_rows_open p db tabs 0 st1) as Hopen.
    pose proof (count_rows_result p db tabs 0 st1) as Hres.
    destruct (count_rows p db tabs 0 st1) as [[total | [e | code]] st2];
      cbn [fst snd] in Hopen, Hres.
    + destruct Hres as [Hres _]. rewrite Hres by eauto.
      unfold sqlite_close. mrun.
      assert (Hclose : st_open
                (set_open (remove_first p (st_open
                   (set_calls (st_calls st2 ++ [CallSqliteClose p]) st2)))
                   (set_calls (st_calls st2 ++ [CallSqliteClose p]) st2))
              = st_open st).
      { cbn [st_open set_open set_calls]. rewrite Hopen. subst st1.
        cbn [st_open set_open set_calls]. apply remove_first_head. }
      destruct (0 <? total); mrun; exact Hclose.
    + destruct (forallb _ tabs) eqn:Hall.
      * destruct Hres as [_ Hres]. destruct (Hres eq_refl); discriminate.
      * cbn [is_Exception]. mrun. rewrite Hopen. reflexivity.
    + destruct (forallb _ tabs) eqn:Hall.
      * destruct Hres as [_ Hres]. destruct (Hres eq_refl); discriminate.
      * cbn [snd]. rewrite Hopen. reflexivity.
Qed.

(** C3 (the claim fails on the code).  [x.db] opens but is no database:
    the first query raises, the handler returns the failure pair, and the
    handle opened by [sqlite3.connect] is still open; [conn.close()] was
    never called. *)
Theorem verify_sqlite_file_leaks_handle_on_exception :
  verify_sqlite_file world_not_a_db "x.db" (initial_state None false) =
    (Ret (false, "Failed to access SQLite file: file is not a database"),
     set_open ["x.db"]
       (set_calls [CallSqliteConnect "x.db";
                   CallSqliteExecute "x.db" tables_query]
          (initial_state None false))) /\
  st_open (verify_sqlite_file world_not_a_db "x.db"
             (initial_state None false)).2 = ["x.db"] /\
  ~ In (CallSqliteClose "x.db")
       (st_calls (verify_sqlite_file world_not_a_db "x.db"
                    (initial_state None false)).2).
Proof.
  split; [vm_compute; reflexivity |]. split; [vm_compute; reflexivity |].
  vm_compute. intros [H | [H | []]]; discriminate.
Qed.

(* ===================================================================== *)
(** * The run driver *)
(* ===================================================================== *)

Lemma loop_entry_failures names st :
  st_failures (loop_entry names st) = None.
Proof.
  unfold loop_entry. destruct (st_failures st) as [l |] eqn:Hl.
  - rewrite bool_decide_eq_true_2 by eauto. reflexivity.
  - rewrite bool_decide_eq_false_2 by (intros [x Hx]; discriminate).
    cbn. exact Hl.
Qed.

Lemma loop_entry_fail_dir names st :
  st_fail_dir (loop_entry names st) = st_fail_dir st.
Proof. unfold loop_entry. destruct (bool_decide _); reflexivity. Qed.

Lemma loop_entry_calls names st :
  st_calls (loop_entry names st) = st_calls st.
Proof. unfold loop_entry. destruct (bool_decide _); reflexivity. Qed.

(** Without a catalog [main] prints its error and exits with status 1;
    nothing else happens. *)
Lemma main_missing w st :
  w_catalog w = None ->
  main w st =
  (Raise (SystemExit 1),
   set_stderr (st_stderr st ++ ["Error: list/bricks.txt not found"]) st).
Proof. intros H. unfold main. rewrite H. reflexivity. Qed.

(** With a catalog [main] is its loop over the names of the catalog,
    followed by the summary and the exit. *)
Lemma main_present w content st :
  w_catalog w = Some content ->
  main w st =
  match verify_all w (read_brick_names (file_lines content)) 0 0
          (loop_entry (read_brick_names (file_lines content)) st) with
  | (Ret (s, f), st1) =>
      (if 0 <? f then Raise (SystemExit 1) else Ret tt, summary s f st1)
  | (Raise r, st1) => (Raise r, st1)
  end.
Proof.
  intros H. unfold main. rewrite H. mrun.
  set (names := read_brick_names (file_lines content)).
  unfold loop_entry.
  destruct (bool_decide (is_Some (st_failures st))); mrun;
    cbn [st_stdout set_failures];
    match goal with
    | |- context [verify_all w names 0 0 ?st0] =>
        destruct (verify_all w names 0 0 st0) as [[[s f] | r] st1]
    end; try reflexivity;
    mrun; unfold summary; destruct (0 <? f); mrun; unfold print, modify;
    cbn [st_stdout set_stdout]; rewrite <- ?app_assoc; reflexivity.
Qed.

(** Counting the bricks that passed and that failed. *)
Lemma passed_failed_length w names :
  Forall (brick_returns w) names ->
  (length (List.filter (brick_passedb w) names) +
   length (List.filter (brick_failedb w) names) = length names)%nat.
Proof.
  induction 1 as [| b names [ok Hok] _ IH]; [reflexivity |].
  cbn [List.filter]. unfold brick_passedb at 1, brick_failedb at 1.
  rewrite Hok. destruct ok; cbn [returned_true returned_false length]; lia.
Qed.

Lemma no_failure_all_passed w names :
  Forall (brick_returns w) names ->
  List.filter (brick_failedb w) names = [] <->
  Forall (fun b => brick_outcome w b = Ret true) names.
Proof.
  induction 1 as [| b names [ok Hok] _ IH].
  - split; constructor.
  - cbn [List.filter]. unfold brick_failedb at 1. rewrite Hok.
    destruct ok; cbn [returned_false].
    + rewrite IH. split.
      * intros Hall. constructor; assumption.
      * intros Hall. apply Forall_cons_1 in Hall as [_ Hall]. exact Hall.
    + split; [discriminate |].
      intros Hall. apply Forall_cons_1 in Hall as [Hb _]. congruence.
Qed.

Lemma filter_failedb_nil w names :
  Forall (fun b => brick_failedb w b = false) names ->
  List.filter (brick_failedb w) names = [].
Proof.
  induction 1 as [| b names Hb _ IH]; [reflexivity |].
  cbn [List.filter]. rewrite Hb. exact IH.
Qed.

Lemma existsb_failedb_false w names :
  Forall (fun b => brick_failedb w b = false) names ->
  existsb (brick_failedb w) names = false.
Proof.
  induction 1 as [| b names Hb _ IH]; [reflexivity |].
  cbn [existsb]. rewrite Hb. exact IH.
Qed.

(** The exit status of [main], run by run.  Without a catalog it is 1 and
    no brick is processed (no library call, no change of the failure log).
    With a catalog it is 0 or 1, and 0 exactly when every brick of the
    catalog passed; when the loop returns its counters, the failure count
    [f] is the number of bricks that failed, the status is 0 iff [f] is
    zero and 1 iff [f] is positive.  A run whose loop is left by an
    exception has no counters, and its status is 1. *)
Lemma main_exit_status (w : World) (st : State) :
  match w_catalog w with
  | None =>
      exit_status (main w st).1 = 1 /\
      st_calls (main w st).2 = st_calls st /\
      st_failures (main w st).2 = st_failures st /\
      st_stdout (main w st).2 = st_stdout st
  | Some content =>
      let names := read_brick_names (file_lines content) in
      (exit_status (main w st).1 = 0 \/ exit_status (main w st).1 = 1) /\
      (exit_status (main w st).1 = 0 <->
       Forall (fun b => brick_outcome w b = Ret true) names) /\
      (forall s f st1,
         verify_all w names 0 0 (loop_entry names st) = (Ret (s, f), st1) ->
         f = Z.of_nat (length (List.filter (brick_failedb w) names)) /\
         (exit_status (main w st).1 = 0 <-> f = 0) /\
         (exit_status (main w st).1 = 1 <-> 0 < f))
  end.
Proof.
  destruct (w_catalog w) as [content |] eqn:Hcat.
  - set (names := read_brick_names (file_lines content)). cbv zeta.
    rewrite (main_present w content st Hcat). fold names.
    pose proof (verify_all_run w names 0 0 (loop_entry names st)) as Hrun.
    pose proof (verify_all_no_exit w names 0 0 (loop_entry names st))
      as Hexit.
    destruct (verify_all w names 0 0 (loop_entry names st))
      as [[[s f] | r] st1].
    + destruct Hrun as (Hret & _ & Hf & _).
      assert (Hstatus : exit_status
                (if 0 <? f then Raise (SystemExit 1) else Ret tt) =
                if 0 <? f then 1 else 0) by (destruct (0 <? f); reflexivity).
      cbn [fst]. rewrite Hstatus.
      pose proof (no_failure_all_passed w names Hret) as Hall.
      assert (Hzero : f = 0 <-> List.filter (brick_failedb w) names = []).
      { rewrite Hf. destruct (List.filter (brick_failedb w) names);
          cbn [length]; split; intros; try reflexivity; try discriminate;
          lia. }
      assert (Hcases : (if 0 <? f then 1 else 0) = 0 /\ f = 0 \/
                       (if 0 <? f then 1 else 0) = 1 /\ 0 < f).
      { destruct (Z.ltb_spec 0 f); [right | left]; split; lia. }
      split; [tauto |]. split.
      * rewrite <- Hall, <- Hzero. lia.
      * intros s' f' st' Heq. injection Heq as _ <- _.
        split; [exact Hf |]. split; lia.
    + destruct Hrun as (before & b & after & Hnames & _ & Hb & _).
      destruct r as [e | code]; [| exfalso; eapply Hexit; reflexivity].
      cbn [fst exit_status]. split; [tauto |]. split.
      * split; [discriminate |]. intros Hall. rewrite Hnames in Hall.
        apply Forall_app in Hall as [_ Hall].
        apply Forall_cons_1 in Hall as [Hp _]. congruence.
      * intros s f st2 H. discriminate.
  - rewrite (main_missing w st Hcat). repeat split.
Qed.

Lemma world_good_bricks : run_bricks world_good = ["chembl"; "tox21"].
Proof. vm_compute. reflexivity. Qed.

Lemma world_good_passes :
  Forall (fun b => brick_outcome world_good b = Ret true) (run_bricks world_good).
Proof.
  rewrite world_good_bricks.
  repeat constructor; vm_compute; reflexivity.
Qed.

Lemma world_good_never_fails :
  Forall (fun b => brick_failedb world_good b = false)
         (run_bricks world_good).
Proof.
  rewrite world_good_bricks.
  repeat constructor; vm_compute; reflexivity.
Qed.

Lemma main_exit_status_witness :
  exit_status (main world_good (initial_state (Some ["stale"]) true)).1 = 0.
Proof.
  apply (proj1 (proj2 (main_exit_status world_good
                         (initial_state (Some ["stale"]) true)))).
  exact world_good_passes.
Defined.

(** When no exception leaves a brick verification, the run reaches its
    summary, every brick is counted once, as a success or as a failure,
    and the two counters add up to the number of brick names. *)
Lemma main_counts_when_bricks_return w content st :
  w_catalog w = Some content ->
  Forall (brick_returns w) (read_brick_names (file_lines content)) ->
  exists s f st1,
    verify_all w (read_brick_names (file_lines content)) 0 0
      (loop_entry (read_brick_names (file_lines content)) st)
    = (Ret (s, f), st1) /\
    main w st =
      (if 0 <? f then Raise (SystemExit 1) else Ret tt, summary s f st1) /\
    s = Z.of_nat (length (List.filter (brick_passedb w)
                            (read_brick_names (file_lines content)))) /\
    f = Z.of_nat (length (List.filter (brick_failedb w)
                            (read_brick_names (file_lines content)))) /\
    s + f = Z.of_nat (length (read_brick_names (file_lines content))).
Proof.
  intros Hcat Hall. set (names := read_brick_names (file_lines content)) in *.
  destruct (verify_all_returns w names 0 0 (loop_entry names st) Hall)
    as (s & f & st1 & Hloop).
  exists s, f, st1. split; [exact Hloop |].
  rewrite (main_present w content st Hcat). fold names. rewrite Hloop.
  split; [reflexivity |].
  pose proof (verify_all_run w names 0 0 (loop_entry names st)) as Hrun.
  rewrite Hloop in Hrun. destruct Hrun as (_ & Hs & Hf & _).
  pose proof (passed_failed_length w names Hall). lia.
Qed.

(** C6 (the claim fails on the code, by the defect of C1).  The catalog is
    there and holds one brick name, [b].  The asset reference of [b] does
    not resolve, the exception leaves [verify_brick] and ends [main]: the
    loop returns no counters, [b] is counted neither as a success nor as a
    failure, and the summary is never printed. *)
Theorem main_aborts_before_counting :
  run_bricks world_unresolved = ["b"] /\
  verify_all world_unresolved ["b"] 0 0
    (loop_entry ["b"] (initial_state None false)) =
    (Raise (Exc (AttributeError "types.SimpleNamespace" "data.csv")),
     (main world_unresolved (initial_state None false)).2) /\
  st_stdout (main world_unresolved (initial_state None false)).2 =
    ["Starting verification of 1 bricks..."; "Verifying brick: b";
     "  Found 1 asset file(s)"] /\
  st_failures (main world_unresolved (initial_state None false)).2 = None.
Proof. repeat split; vm_compute; reflexivity. Qed.

(** C9 (the claim fails on the code, by the defect of C1).  The catalog is
    there and names one brick, [b], whose asset reference does not
    resolve.  No brick fails verification: no failure is recorded, none is
    printed, the failure log does not exist, and the loop never counts a
    failure.  Yet the exception that leaves [main] ends the process with
    exit status 1, not 0. *)
Theorem main_exit_status_without_failure :
  w_catalog world_unresolved = Some ("b" +:+ String "010" "") /\
  exit_status (main world_unresolved (initial_state None false)).1 = 1 /\
  List.filter (brick_failedb world_unresolved) (run_bricks world_unresolved)
    = [] /\
  recorded "b" (main world_unresolved (initial_state None false)).2 = 0%nat /\
  st_failures (main world_unresolved (initial_state None false)).2 = None /\
  List.filter (fun text => startswith text "FAILED: ")
    (st_stdout (main world_unresolved (initial_state None false)).2) = [] /\
  forall s f st1,
    verify_all world_unresolved (run_bricks world_unresolved) 0 0
      (loop_entry (run_bricks world_unresolved) (initial_state None false))
    <> (Ret (s, f), st1).
Proof.
  repeat split; try (vm_compute; reflexivity).
  intros s f st1 H. vm_compute in H. discriminate H.
Qed.

(** C10, as stated, fails: without a catalog no brick fails, and the
    failure log of the previous run is still there afterwards. *)
Lemma stale_log_survives_missing_catalog :
  ~ (forall (w : World) (st : State),
       Forall (fun b => brick_failedb w b = false) (run_bricks w) ->
       st_failures (main w st).2 = None).
Proof.
  intros H.
  specialize (H empty_world (initial_state (Some ["stale"]) true)
                (List.Forall_nil _)).
  vm_compute in H. discriminate H.
Qed.

(** C10 (amended).  For every run over a present catalog in which no
    brick fails, no failure log exists afterwards and the [fail] directory
    is as it was: the log of an earlier run is removed before the loop,
    and only the recording of a failure creates the directory and the
    file. *)
Theorem no_failure_no_log (w : World) (content : string) (st : State) :
  w_catalog w = Some content ->
  Forall (fun b => brick_failedb w b = false)
         (read_brick_names (file_lines content)) ->
  st_failures (main w st).2 = None /\
  st_fail_dir (main w st).2 = st_fail_dir st /\
  st_failures (loop_entry (read_brick_names (file_lines content)) st) = None.
Proof.
  intros Hcat Hnone. set (names := read_brick_names (file_lines content)) in *.
  rewrite (main_present w content st Hcat). fold names.
  pose proof (verify_all_run w names 0 0 (loop_entry names st)) as Hrun.
  destruct (verify_all w names 0 0 (loop_entry names st))
    as [[[s f] | r] st1].
  - destruct Hrun as (_ & _ & _ & Hlog & Hdir).
    rewrite (filter_failedb_nil w names Hnone) in Hlog.
    rewrite (existsb_failedb_false w names Hnone) in Hdir.
    cbn [snd]. unfold summary. cbn [st_failures st_fail_dir set_stdout].
    rewrite Hlog, Hdir, loop_entry_failures, loop_entry_fail_dir.
    repeat split.
  - destruct Hrun as (before & b & after & Hnames & _ & _ & Hlog & Hdir).
    rewrite Hnames in Hnone. apply Forall_app in Hnone as [Hbefore _].
    rewrite (filter_failedb_nil w before Hbefore) in Hlog.
    rewrite (existsb_failedb_false w before Hbefore) in Hdir.
    cbn [snd]. rewrite Hlog, Hdir, loop_entry_failures, loop_entry_fail_dir.
    repeat split.
Qed.

Lemma no_failure_no_log_witness :
  st_failures (main world_good (initial_state (Some ["stale"]) false)).2
    = None /\
  st_fail_dir (main world_good (initial_state (Some ["stale"]) false)).2
    = false.
Proof.
  destruct (no_failure_no_log world_good
              ("# bricks" +:+ String "010" (String "010"
                 ("chembl" +:+ String "010" (" tox21 " +:+ String "010" ""))))
              (initial_state (Some ["stale"]) false) eq_refl)
    as (H1 & H2 & _).
  - exact world_good_never_fails.
  - split; [exact H1 | exact H2].
Defined.

(* ===================================================================== *)
(** * Recording failures *)
(* ===================================================================== *)

Lemma filter_filter_length {A} (p q : A -> bool) l :
  (length (List.filter p (List.filter q l)) <= length (List.filter p l))%nat.
Proof.
  induction l as [| x l IH]; cbn [List.filter]; [lia |].
  destruct (q x), (p x) eqn:Hp; cbn [List.filter length]; rewrite ?Hp;
    cbn [length]; lia.
Qed.

Lemma filter_prefix_length {A} (p : A -> bool) l1 l2 :
  (length (List.filter p l1) <= length (List.filter p (l1 ++ l2)))%nat.
Proof. rewrite List.filter_app, length_app. lia. Qed.

Lemma sublist_List_filter {A} (q : A -> bool) l :
  sublist (List.filter q l) l.
Proof.
  induction l as [| x l IH]; cbn [List.filter]; [constructor |].
  destruct (q x); [apply sublist_skip | apply sublist_cons]; exact IH.
Qed.

(** The loop over the assets stops at the first asset that fails: the
    assets before it passed, and whatever follows it plays no part, in the
    result or in the state. *)
Lemma verify_assets_stops w b assets : forall st st',
  verify_assets w b assets st = (Ret false, st') ->
  exists before a after,
    assets = (before ++ a :: after)%list /\
    Forall (asset_passes w b) before /\
    asset_fails w b a /\
    forall others,
      verify_assets w b (before ++ a :: others) st = (Ret false, st').
Proof.
  induction assets as [| a rest IH]; intros st st'; cbn [verify_assets].
  - rewrite run_ret. discriminate.
  - rewrite run_bind.
    pose proof (verify_asset_file_outcome w a b st) as Hout.
    destruct (verify_asset_file w a b st) as [[[[|] msg] | r] st1] eqn:Hv;
      cbn [fst] in Hout; mrun.
    + intros H. destruct (IH _ _ H) as (before & a' & after & -> & Hp & Hf & Hs).
      exists (a :: before), a', after. repeat split.
      * constructor; [exists msg; congruence | exact Hp].
      * exact Hf.
      * intros others. cbn [app verify_assets]. rewrite run_bind, Hv. mrun.
        apply Hs.
    + intros H. exists [], a, rest. repeat split.
      * constructor.
      * exists msg. congruence.
      * intros others. cbn [app verify_assets]. rewrite run_bind, Hv. mrun.
        exact H.
    + discriminate.
Qed.

(** The log after a run over a present catalog: the bricks that failed,
    among those the run went through, in the order of the catalog. *)
Lemma main_log w content st :
  w_catalog w = Some content ->
  exists processed after,
    read_brick_names (file_lines content) = (processed ++ after)%list /\
    st_failures (main w st).2 =
      append_log (List.filter (brick_failedb w) processed) None.
Proof.
  intros Hcat. set (names := read_brick_names (file_lines content)).
  rewrite (main_present w content st Hcat). fold names.
  pose proof (verify_all_run w names 0 0 (loop_entry names st)) as Hrun.
  destruct (verify_all w names 0 0 (loop_entry names st))
    as [[[s f] | r] st1].
  - destruct Hrun as (_ & _ & _ & Hlog & _).
    exists names, []. split; [symmetry; apply app_nil_r |].
    cbn [snd]. unfold summary. cbn [st_failures set_stdout].
    rewrite Hlog, loop_entry_failures. reflexivity.
  - destruct Hrun as (before & b & after & Hnames & _ & _ & Hlog & _).
    exists before, (b :: after). split; [exact Hnames |].
    cbn [snd]. rewrite Hlog, loop_entry_failures. reflexivity.
Qed.

(** C4, as stated, fails: a catalog may name a brick twice, and a brick
    that fails is then recorded twice in one run. *)
Lemma duplicate_catalog_line_recorded_twice :
  ~ (forall (w : World) (st : State) (brick_name : string),
       (recorded brick_name (main w st).2 <= 1)%nat).
Proof.
  intros H. specialize (H world_duplicate (initial_state None false) "a").
  vm_compute in H. lia.
Qed.

(** C4 (amended).  One verification of a brick adds at most one line to
    the failure log, exactly one when it returns false; the loop over the
    assets records the first failing asset and returns false at once, so
    that no later asset is checked or recorded; and over a run, a brick is
    recorded at most as often as the catalog names it (at most once when
    the catalog names it once), the log being a subsequence of the
    catalog. *)
Theorem failure_recorded_once_per_verification (w : World)
    (content : string) (st : State) :
  w_catalog w = Some content ->
  (forall brick_name,
     (recorded brick_name (main w st).2 <=
      occurrences brick_name (read_brick_names (file_lines content)))%nat) /\
  sublist (default [] (st_failures (main w st).2))
          (read_brick_names (file_lines content)) /\
  (forall brick_name st0,
     st_failures (verify_brick w brick_name st0).2 =
     append_log
       (if returned_false (verify_brick w brick_name st0).1
        then [brick_name] else [])
       (st_failures st0)) /\
  (forall brick_name assets st0 st',
     verify_assets w brick_name assets st0 = (Ret false, st') ->
     st_failures st' = append_log [brick_name] (st_failures st0) /\
     exists before a after,
       assets = (before ++ a :: after)%list /\
       Forall (asset_passes w brick_name) before /\
       asset_fails w brick_name a /\
       forall others,
         verify_assets w brick_name (before ++ a :: others) st0
         = (Ret false, st')).
Proof.
  intros Hcat.
  destruct (main_log w content st Hcat) as (processed & after & Hnames & Hlog).
  assert (Hdef : default [] (st_failures (main w st).2) =
                 List.filter (brick_failedb w) processed).
  { rewrite Hlog, append_log_default. reflexivity. }
  repeat split.
  - intros b. unfold recorded, occurrences. rewrite Hdef, Hnames.
    etransitivity; [apply filter_filter_length | apply filter_prefix_length].
  - rewrite Hdef, Hnames.
    etransitivity; [apply sublist_List_filter | apply sublist_inserts_r].
    reflexivity.
  - intros b st0. apply verify_brick_log.
  - destruct (verify_assets_log w brick_name assets st0) as [Hl _].
    rewrite H in Hl. exact Hl.
  - apply (verify_assets_stops w brick_name assets st0 st' H).
Qed.

Lemma failure_recorded_once_per_verification_witness :
  (recorded "c" (main world_second_fails (initial_state None false)).2
   <= occurrences "c" ["c"])%nat.
Proof.
  apply (failure_recorded_once_per_verification world_second_fails "c"
           (initial_state None false) eq_refl).
Defined.

(** In that world the second asset fails and the third is never opened. *)
Lemma world_second_fails_stops :
  st_calls (main world_second_fails (initial_state None false)).2 =
    [CallSubprocess ["biobricks"; "assets"; "c"];
     CallAssets "c"; CallRdfParse "/c/one.hdt";
     CallAssets "c"; CallRdfParse "/c/two.hdt"] /\
  st_failures (main world_second_fails (initial_state None false)).2 =
    Some ["c"].
Proof. split; vm_compute; reflexivity. Qed.

(* ===================================================================== *)
(** * The catalog *)
(* ===================================================================== *)

#[export] Instance no_lookup_refl : Reflexive no_lookup.
Proof. intros st. exists []. split; [symmetry; apply app_nil_r | reflexivity]. Qed.

#[export] Instance no_lookup_trans : Transitive no_lookup.
Proof.
  intros a b c (n1 & H1 & F1) (n2 & H2 & F2). exists (n1 ++ n2)%list. split.
  - rewrite H2, H1. symmetry. apply app_assoc.
  - rewrite List.filter_app, F1, F2. reflexivity.
Qed.

Lemma modify_no_lookup f :
  (forall st, st_calls (f st) = st_calls st) -> steps no_lookup (modify f).
Proof.
  intros H st. exists []. split; [| reflexivity].
  cbn [modify snd]. rewrite H. symmetry. apply app_nil_r.
Qed.

Lemma library_no_lookup {A} c (r : pyexc + A) :
  is_lookup c = false -> steps no_lookup (library c r).
Proof.
  intros Hc. unfold library. apply steps_bind.
  - intros st. exists [c]. split; [reflexivity |].
    cbn [List.filter]. rewrite Hc. reflexivity.
  - intros _. apply steps_of_answer.
Qed.

Lemma log_call_no_lookup c :
  is_lookup c = false -> steps no_lookup (log_call c).
Proof.
  intros Hc st. exists [c]. split; [reflexivity |].
  cbn [List.filter]. rewrite Hc. reflexivity.
Qed.

#[export] Hint Extern 1 (steps no_lookup (library _ _)) =>
  apply library_no_lookup; reflexivity : script.
#[export] Hint Extern 1 (steps no_lookup (log_call _)) =>
  apply log_call_no_lookup; reflexivity : script.
#[export] Hint Extern 1 (steps no_lookup (modify _)) =>
  apply modify_no_lookup; intros ?; reflexivity : script.
#[export] Hint Extern 1 (steps no_lookup (print _)) =>
  apply modify_no_lookup; intros ?; reflexivity : script.

Lemma sum_fragments_no_lookup frags n :
  steps no_lookup (sum_fragments frags n).
Proof. revert n. induction frags; cbn [sum_fragments]; walk. Qed.

Lemma count_rows_no_lookup p db ts n :
  steps no_lookup (count_rows p db ts n).
Proof. revert n. induction ts; cbn [count_rows]; walk. Qed.

#[export] Hint Resolve sum_fragments_no_lookup count_rows_no_lookup : script.

Lemma run_checker_no_lookup w k input :
  steps no_lookup (run_checker w k input).
Proof.
  destruct k; cbn [run_checker];
    [ unfold verify_parquet_file
    | unfold verify_sqlite_file, sqlite_connect, sqlite_close
    | unfold verify_hdt_file | unfold verify_other_file, getsize ];
    walk.
Qed.

Lemma verify_asset_file_no_lookup w a b :
  steps no_lookup (verify_asset_file w a b).
Proof.
  rewrite verify_asset_file_unfold. unfold getattr.
  pose proof (run_checker_no_lookup w Columnar) as Hc.
  pose proof (run_checker_no_lookup w Relational) as Hr.
  pose proof (run_checker_no_lookup w TripleStore) as Ht.
  pose proof (run_checker_no_lookup w Generic) as Hg.
  cbn [run_checker] in Hc, Hr, Ht, Hg. walk.
Qed.

#[export] Hint Resolve verify_asset_file_no_lookup : script.

Lemma verify_assets_no_lookup w b assets :
  steps no_lookup (verify_assets w b assets).
Proof.
  induction assets; cbn [verify_assets]; unfold record_failure; walk.
Qed.

Lemma get_brick_assets_calls w b st :
  st_calls (get_brick_assets w b st).2 =
  (st_calls st ++ [CallSubprocess (lookup_cmd b)])%list.
Proof.
  unfold get_brick_assets, run_command, try_except, subprocess_run,
    lookup_cmd.
  mrun.
  destruct (w_subprocess w ["biobricks"; "assets"; b])
    as [rc out err | err | msg];
    [destruct (rc =? 0) |..]; mrun; reflexivity.
Qed.

(** One verification of a brick makes one lookup, that of the brick. *)
Lemma verify_brick_lookups w b st :
  exists new,
    st_calls (verify_brick w b st).2 = (st_calls st ++ new)%list /\
    List.filter is_lookup new = [CallSubprocess (lookup_cmd b)].
Proof.
  unfold verify_brick. mrun. set (st0 := set_stdout _ st).
  assert (H0 : st_calls st0 = st_calls st) by reflexivity. clearbody st0.
  pose proof (get_brick_assets_calls w b st0) as Hcalls.
  destruct (get_brick_assets w b st0) as [[[[|] assets] | r] st1];
    cbn [snd] in Hcalls; mrun.
  - set (st2 := set_stdout _ st1).
    destruct (verify_assets_no_lookup w b assets st2) as (new & Hnew & Hf).
    assert (H2 : st_calls st2 = st_calls st1) by reflexivity.
    exists (CallSubprocess (lookup_cmd b) :: new).
    cbn [List.filter is_lookup]. rewrite Hf. split; [| reflexivity].
    destruct (verify_assets w b assets st2) as [[[|] | r] st3];
      cbn [snd] in Hnew; mrun; unfold print, modify; cbn [snd st_calls set_stdout];
      rewrite Hnew, H2, Hcalls, H0, <- app_assoc; reflexivity.
  - exists [CallSubprocess (lookup_cmd b)]. split; [| reflexivity].
    unfold record_failure. mrun. unfold print, modify. cbn. congruence.
  - exists [CallSubprocess (lookup_cmd b)]. split; [| reflexivity].
    congruence.
Qed.

(** The lookups of the loop: one per brick, in order, up to the brick at
    which the loop ends. *)
Lemma verify_all_lookups w names : forall s f st,
  exists processed after new,
    names = (processed ++ after)%list /\
    st_calls (verify_all w names s f st).2 = (st_calls st ++ new)%list /\
    List.filter is_lookup new =
      map (fun b => CallSubprocess (lookup_cmd b)) processed /\
    ((exists counts, (verify_all w names s f st).1 = Ret counts) ->
     after = []).
Proof.
  induction names as [| b rest IH]; intros s f st.
  - exists [], [], []. repeat split. cbn. symmetry. apply app_nil_r.
  - cbn [verify_all]. rewrite run_bind.
    destruct (verify_brick_lookups w b st) as (new1 & Hnew1 & Hf1).
    destruct (verify_brick w b st) as [[ok | r] st1]; cbn [snd] in Hnew1.
    + assert (Hgo : forall s' f',
                exists processed after new,
                  b :: rest = (processed ++ after)%list /\
                  st_calls (verify_all w rest s' f' st1).2
                  = (st_calls st ++ new)%list /\
                  List.filter is_lookup new =
                    map (fun b => CallSubprocess (lookup_cmd b)) processed /\
                  ((exists counts,
                      (verify_all w rest s' f' st1).1 = Ret counts) ->
                   after = [])).
      { intros s' f'.
        destruct (IH s' f' st1) as (processed & after & new & -> & Hc & Hf & Ha).
        exists (b :: processed), after, (new1 ++ new)%list. repeat split.
        - rewrite Hc, Hnew1, <- app_assoc. reflexivity.
        - rewrite List.filter_app, Hf1, Hf. reflexivity.
        - exact Ha. }
      destruct ok; apply Hgo.
    + exists [b], rest, new1. repeat split; try assumption.
      intros [counts H]. discriminate.
Qed.

(** C5.  For every catalog content: the names the run driver reads are
    those the catalog convention gives (a line that is empty after
    trimming is skipped, a line that starts with [#] is skipped, every
    other line, trimmed, is one brick name), the convention gives no other
    list, and the bricks the run looks up are exactly these names, in their
    order: all of them when every verification returns, those up to the
    brick at which the run ends otherwise. *)
Theorem catalog_lines_processed (w : World) (content : string) (st : State) :
  w_catalog w = Some content ->
  catalog_parse (file_lines content) (read_brick_names (file_lines content)) /\
  (forall names,
     catalog_parse (file_lines content) names ->
     names = read_brick_names (file_lines content)) /\
  exists processed after new,
    read_brick_names (file_lines content) = (processed ++ after)%list /\
    st_calls (main w st).2 = (st_calls st ++ new)%list /\
    List.filter is_lookup new =
      map (fun b => CallSubprocess (lookup_cmd b)) processed /\
    (Forall (brick_returns w) (read_brick_names (file_lines content)) ->
     after = []).
Proof.
  intros Hcat. split; [apply read_brick_names_parse |].
  split; [apply catalog_parse_unique |].
  set (names := read_brick_names (file_lines content)).
  destruct (verify_all_lookups w names 0 0 (loop_entry names st))
    as (processed & after & new & Hnames & Hcalls & Hf & Hafter).
  exists processed, after, new. split; [exact Hnames |].
  rewrite loop_entry_calls in Hcalls.
  rewrite (main_present w content st Hcat). fold names.
  split; [| split; [exact Hf |]].
  - destruct (verify_all w names 0 0 (loop_entry names st))
      as [[[s f] | r] st1]; exact Hcalls.
  - intros Hall. apply Hafter.
    destruct (verify_all_returns w names 0 0 (loop_entry names st) Hall)
      as (s & f & st1 & ->).
    eauto.
Qed.

Lemma catalog_lines_processed_witness :
  catalog_parse
    ["# bricks" +:+ String "010" ""; String "010" "";
     "chembl" +:+ String "010" ""; " tox21 " +:+ String "010" ""]
    ["chembl"; "tox21"].
Proof.
  apply (catalog_lines_processed world_good
           ("# bricks" +:+ String "010" (String "010"
              ("chembl" +:+ String "010" (" tox21 " +:+ String "010" ""))))
           (initial_state None false) eq_refl).
Defined.

(* ===================================================================== *)
(** * The format verifiers, in full *)
(* ===================================================================== *)

Lemma sum_fragments_run frags : forall acc st,
  sum_fragments frags acc st =
  (match first_error frags with
   | Some e => Raise (Exc e)
   | None => Ret (acc + total frags)
   end, st).
Proof.
  induction frags as [| [e | n] frags IH]; intros acc st;
    cbn [sum_fragments first_error total of_answer]; mrun.
  - rewrite Z.add_0_r. reflexivity.
  - reflexivity.
  - rewrite IH, Z.add_assoc. reflexivity.
Qed.

(** X1.  The columnar verifier never raises and makes one library call,
    the opening of the dataset.  When the dataset opens and the metadata
    of every fragment reads, it answers by the sum N of the row counts of
    the fragments: ok is N > 0 (a dataset without fragments is a failure)
    and the message names N.  When the opening or a fragment raises, it
    answers false with the text of the first exception. *)
Theorem verify_parquet_file_contract (w : World) (file_path : string)
    (st : State) :
  (verify_parquet_file w file_path st).1 =
    Ret match w_parquet w file_path with
        | inl e => (false, "Failed to load parquet file: " +:+ str_exc e)
        | inr fragments =>
            match first_error fragments with
            | Some e => (false, "Failed to load parquet file: " +:+ str_exc e)
            | None =>
                if 0 <? total fragments
                then (true, "Parquet file has "
                            +:+ str_of_Z (total fragments) +:+ " rows")
                else (false, "Parquet file is empty ("
                             +:+ str_of_Z (total fragments) +:+ " rows)")
            end
        end /\
  st_calls (verify_parquet_file w file_path st).2 =
    (st_calls st ++ [CallParquetDataset file_path])%list.
Proof.
  unfold verify_parquet_file, try_except, library. mrun.
  destruct (w_parquet w file_path) as [e | frags]; cbn [of_answer]; mrun.
  - split; reflexivity.
  - rewrite sum_fragments_run.
    destruct (first_error frags) as [e |]; cbn [is_Exception]; mrun.
    + split; reflexivity.
    + rewrite Z.add_0_l. destruct (0 <? total frags); mrun; split; reflexivity.
Qed.

Lemma count_rows_run p db tables : forall acc st,
  (count_rows p db tables acc st).1 =
    match first_error (count_answers db tables) with
    | Some e => Raise (Exc e)
    | None => Ret (acc + total (count_answers db tables))
    end /\
  st_calls (count_rows p db tables acc st).2 =
    (st_calls st ++ queries_made p db tables)%list.
Proof.
  induction tables as [| t tables IH]; intros acc st;
    cbn [count_rows count_answers map first_error total queries_made].
  - rewrite run_ret, Z.add_0_r, app_nil_r. split; reflexivity.
  - unfold library. mrun. fold (count_answers db tables).
    destruct (db_execute_count db (count_query t)) as [e | n];
      cbn [of_answer]; mrun.
    + split; reflexivity.
    + destruct (IH (acc + n)
                  (set_calls
                     (st_calls st ++ [CallSqliteExecute p (count_query t)])
                     st)) as [IH1 IH2].
      rewrite IH1, IH2. cbn [st_calls set_calls].
      rewrite <- app_assoc, Z.add_assoc. split; reflexivity.
Qed.

(** X2.  The relational verifier never raises.  It answers false with the
    text of the exception when the file does not open or a query raises;
    false with "no tables" when the database has no table; and otherwise
    by the sum T of the row counts of all tables: ok is T > 0, and the
    message names the number of tables and, when ok, T. *)
Theorem verify_sqlite_file_contract (w : World) (file_path : string)
    (st : State) :
  (verify_sqlite_file w file_path st).1 =
    Ret match w_sqlite w file_path with
        | inl e => (false, "Failed to access SQLite file: " +:+ str_exc e)
        | inr db =>
            match db_tables db with
            | inl e => (false, "Failed to access SQLite file: " +:+ str_exc e)
            | inr [] => (false, "SQLite file has no tables")
            | inr tables =>
                match first_error (count_answers db tables) with
                | Some e =>
                    (false, "Failed to access SQLite file: " +:+ str_exc e)
                | None =>
                    if 0 <? total (count_answers db tables)
                    then (true, "SQLite file has "
                                +:+ str_of_nat (length tables)
                                +:+ " tables with "
                                +:+ str_of_Z (total (count_answers db tables))
                                +:+ " total rows")
                    else (false, "SQLite file has "
                                 +:+ str_of_nat (length tables)
                                 +:+ " tables but 0 rows")
                end
            end
        end.
Proof.
  unfold verify_sqlite_file, try_except, sqlite_connect, library. mrun.
  destruct (w_sqlite w file_path) as [e | db]; cbn [of_answer]; mrun;
    [reflexivity |].
  destruct (db_tables db) as [e | tables]; cbn [of_answer]; mrun;
    [reflexivity |].
  destruct tables as [| t tables].
  - unfold sqlite_close. mrun. reflexivity.
  - set (tabs := t :: tables). mrun.
    match goal with
    | |- context [count_rows file_path db tabs 0 ?st0] =>
        destruct (count_rows_run file_path db tabs 0 st0) as [Hres _];
        destruct (count_rows file_path db tabs 0 st0) as [r st2]
    end.
    cbn [fst] in Hres. subst r.
    destruct (first_error (count_answers db tabs)) as [e |];
      cbn [is_Exception]; mrun; [reflexivity |].
    unfold sqlite_close. mrun. rewrite Z.add_0_l.
    destruct (0 <? total (count_answers db tabs)); mrun; reflexivity.
Qed.

(** X3.  The library calls of the relational verifier, in order: the
    connect; when it succeeds, the query of the table names; when that
    answers, one count query per table, in the order of the tables, up to
    and including the first that raises; and [close], once and last,
    exactly when no query raised.  A database without tables gets no count
    query.  When [close] is called, the handles that were open before are
    those open afterwards. *)
Theorem verify_sqlite_file_calls (w : World) (file_path : string)
    (st : State) :
  st_calls (verify_sqlite_file w file_path st).2 =
    (st_calls st ++
     CallSqliteConnect file_path ::
     match w_sqlite w file_path with
     | inl _ => []
     | inr db =>
         CallSqliteExecute file_path tables_query ::
         match db_tables db with
         | inl _ => []
         | inr tables =>
             queries_made file_path db tables ++
             match first_error (count_answers db tables) with
             | Some _ => []
             | None => [CallSqliteClose file_path]
             end
         end
     end)%list /\
  (In (CallSqliteClose file_path)
      (drop (length (st_calls st))
            (st_calls (verify_sqlite_file w file_path st).2)) ->
   st_open (verify_sqlite_file w file_path st).2 = st_open st).
Proof.
  pose proof (verify_sqlite_file_handle w file_path st) as Hopen.
  assert (Hcalls :
    st_calls (verify_sqlite_file w file_path st).2 =
    (st_calls st ++
     CallSqliteConnect file_path ::
     match w_sqlite w file_path with
     | inl _ => []
     | inr db =>
         CallSqliteExecute file_path tables_query ::
         match db_tables db with
         | inl _ => []
         | inr tables =>
             queries_made file_path db tables ++
             match first_error (count_answers db tables) with
             | Some _ => []
             | None => [CallSqliteClose file_path]
             end
         end
     end)%list).
  { unfold verify_sqlite_file, try_except, sqlite_connect, library. mrun.
    destruct (w_sqlite w file_path) as [e | db]; cbn [of_answer]; mrun;
      [reflexivity |].
    destruct (db_tables db) as [e | tables]; cbn [of_answer]; mrun.
    { cbn [st_calls set_calls set_open]. rewrite <- app_assoc. reflexivity. }
    destruct tables as [| t tables].
    - unfold sqlite_close. mrun. cbn [st_calls set_calls set_open].
      rewrite <- !app_assoc. reflexivity.
    - set (tabs := t :: tables). mrun.
      match goal with
      | |- context [count_rows file_path db tabs 0 ?st0] =>
          destruct (count_rows_run file_path db tabs 0 st0) as [Hres Hc];
          destruct (count_rows file_path db tabs 0 st0) as [r st2]
      end.
      cbn [fst snd st_calls set_calls set_open] in Hres, Hc. subst r.
      destruct (first_error (count_answers db tabs)) as [e |];
        cbn [is_Exception]; mrun.
      + cbn [snd]. rewrite Hc, app_nil_r, <- !app_assoc. reflexivity.
      + unfold sqlite_close. mrun.
        destruct (0 <? 0 + total (count_answers db tabs)); mrun;
          cbn [snd st_calls set_calls set_open];
          rewrite Hc, <- !app_assoc; reflexivity. }
  split; [exact Hcalls |].
  rewrite Hcalls, drop_app_length. intros Hin.
  destruct (w_sqlite w file_path) as [e | db]; [exact Hopen |].
  destruct Hin as [Hin | Hin]; [discriminate |].
  destruct (db_tables db) as [e | tables].
  - destruct Hin as [Hin | []]. discriminate.
  - destruct Hin as [Hin | Hin]; [discriminate |].
    assert (Hq : forall ts, ~ In (CallSqliteClose file_path)
                               (queries_made file_path db ts)).
    { induction ts as [| t ts IH]; cbn [queries_made]; [tauto |].
      intros [H | H]; [discriminate |].
      destruct (db_execute_count db (count_query t)); [destruct H | tauto]. }
    assert (Hall : forall ts,
              first_error (count_answers db ts) = None ->
              forallb (fun t => answers (db_execute_count db (count_query t)))
                      ts = true).
    { induction ts as [| t ts IH]; cbn [count_answers map first_error forallb];
        [reflexivity |].
      destruct (db_execute_count db (count_query t)); cbn [answers andb];
        [discriminate | exact IH]. }
    apply in_app_or in Hin as [Hin | Hin]; [exfalso; eapply Hq; exact Hin |].
    destruct (first_error (count_answers db tables)) eqn:Hfe;
      [destruct Hin |].
    rewrite (Hall tables Hfe) in Hopen. exact Hopen.
Qed.

(** X4.  Failure isolation of the format verifiers: whatever the library
    does, each of the four checkers returns a pair; it leaves the failure
    log and its directory as they were, and it looks up no brick. *)
Theorem format_verifiers_never_raise (w : World) (k : checker)
    (input : string) (st : State) :
  exists ok message st',
    run_checker w k input st = (Ret (ok, message), st') /\
    st_failures st' = st_failures st /\
    st_fail_dir st' = st_fail_dir st /\
    exists new,
      st_calls st' = (st_calls st ++ opening_call k input :: new)%list /\
      List.filter is_lookup (opening_call k input :: new) = [].
Proof.
  destruct (run_checker_returns w k input st) as ([ok message] & st' & Hrun).
  exists ok, message, st'. split; [exact Hrun |].
  assert (Hq : steps quiet (run_checker w k input))
    by (destruct k; cbn [run_checker]; walk).
  destruct (Hq st) as (Hf & Hd & _). rewrite Hrun in Hf, Hd.
  split; [exact Hf |]. split; [exact Hd |].
  destruct (run_checker_opens w k input st) as [rest Hrest].
  destruct (run_checker_no_lookup w k input st) as (new & Hnew & Hfilter).
  rewrite Hrun in Hrest, Hnew. cbn [snd] in Hrest, Hnew.
  exists rest. split; [exact Hrest |].
  rewrite Hnew in Hrest. apply app_inv_head in Hrest. rewrite <- Hrest.
  exact Hfilter.
Qed.

(** X5.  [verify_asset_file] raises exactly when the asset reference does
    not resolve: when the asset map of the brick cannot be had, with the
    exception of the library, and when the portion of the reference before
    the colon names no entry of the map, with [AttributeError].  Nothing
    was checked then: the lookup in the map is the only library call. *)
Theorem verify_asset_file_raises_exactly (w : World)
    (asset_ref brick_name : string) (st : State) (r : raised) (st' : State) :
  verify_asset_file w asset_ref brick_name st = (Raise r, st') <->
  st' = set_calls (st_calls st ++ [CallAssets brick_name]) st /\
  match w_assets w brick_name with
  | inl e => r = Exc e
  | inr ns =>
      ns !! hd "" (split ":" asset_ref) = None /\
      r = Exc (AttributeError "types.SimpleNamespace"
                 (hd "" (split ":" asset_ref)))
  end.
Proof.
  destruct (w_assets w brick_name) as [e | ns] eqn:Hns.
  - rewrite verify_asset_file_unfold, Hns. unfold library. mrun.
    cbn [of_answer]. mrun. split.
    + intros H. injection H as <- <-. split; reflexivity.
    + intros [-> ->]. reflexivity.
  - destruct (ns !! hd "" (split ":" asset_ref)) as [path |] eqn:Hpath.
    + split; [| intros (_ & H & _); discriminate]. intros H.
      rewrite (verify_asset_file_resolved w _ _ ns _ path st Hns
                 (before_colon_total asset_ref) Hpath) in H.
      destruct (run_checker_returns w (checker_by_precedence asset_ref)
                  (checker_input (checker_by_precedence asset_ref)
                     asset_ref path)
                  (set_calls (st_calls st ++ [CallAssets brick_name]) st))
        as (a & st2 & Hret).
      congruence.
    + rewrite verify_asset_file_unfold, Hns. unfold library. mrun.
      cbn [of_answer]. mrun. unfold getattr. rewrite Hpath. mrun. split.
      * intros H. injection H as <- <-. repeat split.
      * intros (-> & _ & ->). reflexivity.
Qed.

(* ===================================================================== *)
(** * One brick *)
(* ===================================================================== *)

Lemma get_brick_assets_run w b st :
  get_brick_assets w b st =
  (match w_subprocess w (lookup_cmd b) with
   | Exited rc out _ =>
       if rc =? 0
       then Ret (bool_decide (asset_lines out <> []), asset_lines out)
       else Ret (false, [])
   | TimedOut _ => Ret (false, [])
   | SpawnFailed msg => Raise (Exc (OtherException msg))
   end,
   set_calls (st_calls st ++ [CallSubprocess (lookup_cmd b)]) st).
Proof.
  unfold get_brick_assets, run_command, try_except, subprocess_run,
    lookup_cmd.
  mrun.
  destruct (w_subprocess w ["biobricks"; "assets"; b])
    as [rc out err | err | msg];
    [destruct (rc =? 0) |..]; mrun; try reflexivity.
  rewrite fold_collect_asset, nonempty_length. cbn [app].
  fold (asset_lines (strip out)). rewrite asset_lines_strip. reflexivity.
Qed.

Lemma lookup_empty_run w b st :
  lookup_empty w b ->
  exists l,
    get_brick_assets w b st =
    (Ret (false, l),
     set_calls (st_calls st ++ [CallSubprocess (lookup_cmd b)]) st).
Proof.
  unfold lookup_empty. intros H. rewrite get_brick_assets_run.
  destruct (w_subprocess w (lookup_cmd b)) as [rc out err | err | msg];
    [| eauto | contradiction].
  destruct (Z.eqb_spec rc 0) as [-> | Hrc]; [| eauto].
  destruct H as [H | H]; [contradiction |].
  rewrite H. eauto.
Qed.

(** X6.  A brick whose lookup yields no asset (non-zero exit, timeout, or
    no non-blank line) fails at once: [verify_brick] returns false, the
    brick is appended to the failure log (which creates the directory and
    the file when needed), the console shows the brick and the reason, and
    the lookup stays the only library call: no format verifier runs. *)
Theorem verify_brick_without_assets (w : World) (brick_name : string)
    (st : State) :
  lookup_empty w brick_name ->
  (verify_brick w brick_name st).1 = Ret false /\
  st_calls (verify_brick w brick_name st).2 =
    (st_calls st ++ [CallSubprocess (lookup_cmd brick_name)])%list /\
  st_failures (verify_brick w brick_name st).2 =
    Some (default [] (st_failures st) ++ [brick_name])%list /\
  st_fail_dir (verify_brick w brick_name st).2 = true /\
  st_stdout (verify_brick w brick_name st).2 =
    (st_stdout st ++
     ["Verifying brick: " +:+ brick_name;
      "FAILED: " +:+ brick_name
      +:+ " - No assets found or biobricks assets command failed"])%list.
Proof.
  intros Hempty. unfold verify_brick. mrun.
  destruct (lookup_empty_run w brick_name
              (set_stdout
                 (st_stdout st ++ ["Verifying brick: " +:+ brick_name]) st)
              Hempty) as [l ->].
  mrun. unfold record_failure. mrun. cbn. rewrite <- app_assoc.
  repeat split.
Qed.

Lemma verify_brick_without_assets_witness :
  (verify_brick world_duplicate "a" (initial_state None false)).1 = Ret false.
Proof.
  apply (verify_brick_without_assets world_duplicate "a"
           (initial_state None false)).
  unfold lookup_empty. cbn. left. discriminate.
Defined.

Lemma verify_assets_result w b assets : forall st,
  (verify_assets w b assets st).1 = assets_outcome w b assets.
Proof.
  induction assets as [| a rest IH]; intros st;
    cbn [verify_assets assets_outcome]; [reflexivity |].
  rewrite run_bind.
  pose proof (verify_asset_file_outcome w a b st) as Hout.
  destruct (verify_asset_file w a b st) as [[[[|] msg] | r] st1];
    cbn [fst] in Hout; rewrite <- Hout; mrun.
  - apply IH.
  - unfold record_failure. mrun. reflexivity.
  - reflexivity.
Qed.

Lemma assets_outcome_true w b assets :
  assets_outcome w b assets = Ret true <-> Forall (asset_passes w b) assets.
Proof.
  induction assets as [| a rest IH]; cbn [assets_outcome].
  - split; [constructor | reflexivity].
  - unfold asset_passes at 1.
    destruct (asset_outcome w b a) as [[[|] msg] | r] eqn:Ha.
    + rewrite IH. split.
      * intros H. constructor; [exists msg; exact Ha | exact H].
      * intros H. apply Forall_cons_1 in H as [_ H]. exact H.
    + split; [discriminate |]. intros H.
      apply Forall_cons_1 in H as [[m Hm] _]. unfold asset_passes in Hm.
      congruence.
    + split; [discriminate |]. intros H.
      apply Forall_cons_1 in H as [[m Hm] _]. congruence.
Qed.

Lemma assets_outcome_false w b assets :
  assets_outcome w b assets = Ret false <->
  exists before a after,
    assets = (before ++ a :: after)%list /\
    Forall (asset_passes w b) before /\ asset_fails w b a.
Proof.
  induction assets as [| a rest IH]; cbn [assets_outcome].
  - split; [discriminate |].
    intros (before & x & after & H & _). destruct before; discriminate.
  - destruct (asset_outcome w b a) as [[[|] msg] | r] eqn:Ha.
    + rewrite IH. split.
      * intros (before & x & after & -> & Hp & Hf).
        exists (a :: before), x, after. repeat split; [| exact Hf].
        constructor; [exists msg; exact Ha | exact Hp].
      * intros (before & x & after & Heq & Hp & Hf).
        destruct before as [| y before]; cbn [app] in Heq;
          injection Heq as -> ->.
        -- destruct Hf as [m Hm]. congruence.
        -- apply Forall_cons_1 in Hp as [_ Hp]. eauto 6.
    + split; [intros _ | reflexivity].
      exists [], a, rest. repeat split; [constructor | exists msg; exact Ha].
    + split; [discriminate |].
      intros (before & x & after & Heq & Hp & Hf).
      destruct before as [| y before]; cbn [app] in Heq;
        injection Heq as -> ->.
      * destruct Hf as [m Hm]. congruence.
      * apply Forall_cons_1 in Hp as [[m Hm] _]. congruence.
Qed.

Lemma brick_outcome_by_assets w b :
  brick_outcome w b =
  match w_subprocess w (lookup_cmd b) with
  | SpawnFailed msg => Raise (Exc (OtherException msg))
  | _ =>
      match looked_up w b with
      | [] => Ret false
      | assets => assets_outcome w b assets
      end
  end.
Proof.
  unfold brick_outcome, verify_brick, looked_up. mrun.
  rewrite get_brick_assets_run.
  destruct (w_subprocess w (lookup_cmd b)) as [rc out err | err | msg];
    [| mrun; unfold record_failure; mrun; reflexivity | reflexivity].
  destruct (rc =? 0); [| mrun; unfold record_failure; mrun; reflexivity].
  destruct (asset_lines out) as [| a rest] eqn:Hlines.
  - rewrite bool_decide_eq_false_2 by congruence.
    mrun. unfold record_failure. mrun. reflexivity.
  - rewrite bool_decide_eq_true_2 by discriminate. mrun.
    match goal with
    | |- context [verify_assets w b (a :: rest) ?st0] =>
        pose proof (verify_assets_result w b (a :: rest) st0) as Hres;
        destruct (verify_assets w b (a :: rest) st0) as [[[|] | r] st1]
    end; cbn [fst] in Hres; rewrite <- Hres; mrun; reflexivity.
Qed.

(** X7.  How one brick composes its assets.  [verify_brick] returns true
    exactly when the lookup yields at least one asset reference and every
    one of them passes its check; it returns false exactly when the lookup
    yields none, or when some asset fails and all the assets before it
    passed (the assets after it play no part). *)
Theorem verify_brick_by_assets (w : World) (brick_name : string) :
  (brick_outcome w brick_name = Ret true <->
   looked_up w brick_name <> [] /\
   Forall (asset_passes w brick_name) (looked_up w brick_name)) /\
  (brick_outcome w brick_name = Ret false <->
   lookup_empty w brick_name \/
   exists before a after,
     looked_up w brick_name = (before ++ a :: after)%list /\
     Forall (asset_passes w brick_name) before /\
     asset_fails w brick_name a).
Proof.
  rewrite brick_outcome_by_assets. unfold lookup_empty.
  pose proof (assets_outcome_true w brick_name (looked_up w brick_name))
    as Htrue.
  pose proof (assets_outcome_false w brick_name (looked_up w brick_name))
    as Hfalse.
  assert (Hnil : looked_up w brick_name = [] ->
                 ~ exists before a after,
                     looked_up w brick_name = (before ++ a :: after)%list /\
                     Forall (asset_passes w brick_name) before /\
                     asset_fails w brick_name a).
  { intros Hl (before & a & after & H & _). rewrite Hl in H.
    destruct before; discriminate. }
  assert (Hempty :
    match w_subprocess w (lookup_cmd brick_name) with
    | Exited rc out _ => (rc <> 0 \/ asset_lines out = []) <->
                         looked_up w brick_name = []
    | TimedOut _ => looked_up w brick_name = []
    | SpawnFailed _ => looked_up w brick_name = []
    end).
  { unfold looked_up.
    destruct (w_subprocess w (lookup_cmd brick_name)) as [rc out err | |];
      try reflexivity.
    destruct (Z.eqb_spec rc 0); split; intros; try tauto; reflexivity. }
  destruct (w_subprocess w (lookup_cmd brick_name)) as [rc out err | err | msg].
  - destruct (looked_up w brick_name) as [| a rest] eqn:Hl.
    + split.
      * split; [discriminate | intros [H _]; contradiction].
      * split; [intros _; left; apply Hempty; reflexivity | reflexivity].
    + split.
      * rewrite Htrue. split; [intros H; split; [discriminate | exact H] |].
        intros [_ H]. exact H.
      * rewrite Hfalse. split; [intros H; right; exact H |].
        intros [H | H]; [| exact H]. apply Hempty in H. discriminate.
  - rewrite Hempty in *. split.
    + split; [discriminate | intros [H _]; contradiction].
    + split; [intros _; left; trivial | reflexivity].
  - rewrite Hempty in *. split.
    + split; [discriminate | intros [H _]; contradiction].
    + split; [discriminate |]. intros [[] | H]. exfalso.
      apply (Hnil eq_refl H).
Qed.

(* ===================================================================== *)
(** * The run, from outside *)
(* ===================================================================== *)

Lemma verify_all_blind w names : forall s f,
  state_blind (verify_all w names s f).
Proof.
  induction names as [| b rest IH]; intros s f; cbn [verify_all].
  - apply blind_ret.
  - apply blind_bind; [apply verify_brick_blind |].
    intros [|]; apply IH.
Qed.

Lemma processed_bricks_all w names :
  Forall (brick_returns w) names -> processed_bricks w names = names.
Proof.
  induction 1 as [| b names [ok Hok] _ IH]; cbn [processed_bricks];
    [reflexivity |].
  rewrite Hok, IH. reflexivity.
Qed.

Lemma processed_bricks_prefix w before b after r :
  Forall (brick_returns w) before ->
  brick_outcome w b = Raise r ->
  processed_bricks w (before ++ b :: after) = before.
Proof.
  intros Hbefore Hb.
  induction Hbefore as [| x before [ok Hok] _ IH];
    cbn [app processed_bricks].
  - rewrite Hb. reflexivity.
  - rewrite Hok, IH. reflexivity.
Qed.

(** What the loop leaves of the failure log and of its directory. *)
Lemma verify_all_effect w names s f st :
  st_failures (verify_all w names s f st).2 =
    append_log (List.filter (brick_failedb w) (processed_bricks w names))
               (st_failures st) /\
  st_fail_dir (verify_all w names s f st).2 =
    (if existsb (brick_failedb w) (processed_bricks w names) then true
     else st_fail_dir st).
Proof.
  pose proof (verify_all_run w names s f st) as Hrun.
  destruct (verify_all w names s f st) as [[[s' f'] | r] st'].
  - destruct Hrun as (Hall & _ & _ & Hlog & Hdir).
    rewrite (processed_bricks_all w names Hall). split; assumption.
  - destruct Hrun as (before & b & after & -> & Hall & Hb & Hlog & Hdir).
    rewrite (processed_bricks_prefix w before b after r Hall Hb).
    split; assumption.
Qed.

Lemma main_effect w content st :
  w_catalog w = Some content ->
  (main w st).1 =
    match (verify_all w (read_brick_names (file_lines content)) 0 0
             (loop_entry (read_brick_names (file_lines content)) st)).1 with
    | Ret (_, f) => if 0 <? f then Raise (SystemExit 1) else Ret tt
    | Raise r => Raise r
    end /\
  st_failures (main w st).2 =
    append_log (List.filter (brick_failedb w)
                  (processed_bricks w (read_brick_names (file_lines content))))
               None /\
  st_fail_dir (main w st).2 =
    (if existsb (brick_failedb w)
          (processed_bricks w (read_brick_names (file_lines content)))
     then true else st_fail_dir st).
Proof.
  intros Hcat. set (names := read_brick_names (file_lines content)).
  rewrite (main_present w content st Hcat). fold names.
  destruct (verify_all_effect w names 0 0 (loop_entry names st)) as [Hl Hd].
  rewrite loop_entry_failures in Hl. rewrite loop_entry_fail_dir in Hd.
  destruct (verify_all w names 0 0 (loop_entry names st))
    as [[[s f] | r] st1]; cbn [fst snd] in *.
  - unfold summary. cbn [st_failures st_fail_dir set_stdout].
    repeat split; assumption.
  - repeat split; assumption.
Qed.

(** X8.  The failure log after a run over a present catalog holds the
    bricks that failed in this run, in the order of the catalog, and
    nothing of what an earlier run had logged; the file exists exactly
    when a brick failed, and only then was the directory created.  When
    every verification returns, the bricks of the run are all the names
    of the catalog. *)
Theorem main_failure_log (w : World) (content : string) (st : State) :
  w_catalog w = Some content ->
  st_failures (main w st).2 =
    append_log
      (List.filter (brick_failedb w)
         (processed_bricks w (read_brick_names (file_lines content))))
      None /\
  (st_failures (main w st).2 = None <->
   Forall (fun b => brick_failedb w b = false)
     (processed_bricks w (read_brick_names (file_lines content)))) /\
  st_fail_dir (main w st).2 =
    (if bool_decide (st_failures (main w st).2 = None) then st_fail_dir st
     else true) /\
  (Forall (brick_returns w) (read_brick_names (file_lines content)) ->
   processed_bricks w (read_brick_names (file_lines content)) =
   read_brick_names (file_lines content)).
Proof.
  intros Hcat. destruct (main_effect w content st Hcat) as (_ & Hlog & Hdir).
  set (done := processed_bricks w (read_brick_names (file_lines content))) in *.
  assert (Hnone : append_log (List.filter (brick_failedb w) done) None = None
                  <-> Forall (fun b => brick_failedb w b = false) done).
  { split.
    - intros H. apply append_log_None in H.
      clear -H. induction done as [| b done IH]; [constructor |].
      cbn [List.filter] in H. destruct (brick_failedb w b) eqn:Hb;
        [discriminate |]. constructor; [exact Hb | apply IH, H].
    - intros H. rewrite (filter_failedb_nil w done H). reflexivity. }
  split; [exact Hlog |]. split; [rewrite Hlog; exact Hnone |].
  split; [| apply processed_bricks_all].
  rewrite Hdir, Hlog. destruct (existsb (brick_failedb w) done) eqn:Hex.
  - rewrite bool_decide_eq_false_2; [reflexivity |].
    intros H. apply Hnone in H.
    rewrite (existsb_failedb_false w done H) in Hex. discriminate.
  - rewrite bool_decide_eq_true_2; [reflexivity |].
    apply Hnone. clear -Hex. induction done as [| b done IH]; [constructor |].
    cbn [existsb] in Hex. apply orb_false_iff in Hex as [Hb Hex].
    constructor; [exact Hb | apply IH, Hex].
Qed.

Lemma main_failure_log_witness :
  st_failures (main world_second_fails (initial_state (Some ["old"]) true)).2
  = append_log
      (List.filter (brick_failedb world_second_fails)
         (processed_bricks world_second_fails
            (read_brick_names (file_lines "c"))))
      None.
Proof.
  apply (main_failure_log world_second_fails "c"
           (initial_state (Some ["old"]) true) eq_refl).
Defined.

(** X9.  Running the driver a second time, on the same catalog and the
    same assets, from the state the first run left, ends the same way
    (same return or exit, so the same exit status) and leaves the same
    failure log and the same directory. *)
Theorem main_idempotent (w : World) (st : State) :
  (main w (main w st).2).1 = (main w st).1 /\
  st_failures (main w (main w st).2).2 = st_failures (main w st).2 /\
  st_fail_dir (main w (main w st).2).2 = st_fail_dir (main w st).2.
Proof.
  destruct (w_catalog w) as [content |] eqn:Hcat.
  - destruct (main_effect w content st Hcat) as (Hr1 & Hl1 & Hd1).
    destruct (main_effect w content (main w st).2 Hcat) as (Hr2 & Hl2 & Hd2).
    set (names := read_brick_names (file_lines content)) in *.
    rewrite Hr2, Hr1, Hl2, Hl1, Hd2, Hd1.
    rewrite (verify_all_blind w names 0 0
               (loop_entry names (main w st).2) (loop_entry names st)).
    repeat split.
    destruct (existsb (brick_failedb w) (processed_bricks w names));
      reflexivity.
  - rewrite !(main_missing w _ Hcat). repeat split.
Qed.

(** X10.  The two outputs of a run agree.  Over a present catalog, when
    every verification returns: the exit status is 1 exactly when the
    failure log exists afterwards and 0 exactly when it does not, and the
    log has as many lines as the summary counts failures. *)
Theorem exit_status_matches_log (w : World) (content : string) (st : State) :
  w_catalog w = Some content ->
  Forall (brick_returns w) (read_brick_names (file_lines content)) ->
  (exit_status (main w st).1 = 1 <-> is_Some (st_failures (main w st).2)) /\
  (exit_status (main w st).1 = 0 <-> st_failures (main w st).2 = None) /\
  exists s f st1,
    verify_all w (read_brick_names (file_lines content)) 0 0
      (loop_entry (read_brick_names (file_lines content)) st)
    = (Ret (s, f), st1) /\
    Z.of_nat (length (default [] (st_failures (main w st).2))) = f.
Proof.
  intros Hcat Hall.
  destruct (main_counts_when_bricks_return w content st Hcat Hall)
    as (s & f & st1 & Hloop & Hmain & _ & Hf & _).
  destruct (main_effect w content st Hcat) as (_ & Hlog & _).
  rewrite (processed_bricks_all w _ Hall) in Hlog.
  set (names := read_brick_names (file_lines content)) in *.
  rewrite Hlog, Hmain. cbn [fst].
  assert (Hlen : Z.of_nat (length (default []
                   (append_log (List.filter (brick_failedb w) names) None)))
                 = f).
  { rewrite append_log_default. cbn [default app]. symmetry. exact Hf. }
  split; [| split; [| exists s, f, st1; split; [exact Hloop | exact Hlen]]].
  - destruct (List.filter (brick_failedb w) names) as [| b l] eqn:Hfl;
      cbn [append_log length] in *.
    + subst f. cbn. split; [discriminate | intros [x Hx]; discriminate].
    + assert (H0 : (0 <? f) = true) by (apply Z.ltb_lt; cbn in Hlen; lia).
      rewrite H0. cbn. split; [eauto | reflexivity].
  - destruct (List.filter (brick_failedb w) names) as [| b l] eqn:Hfl;
      cbn [append_log length] in *.
    + subst f. cbn. split; reflexivity.
    + assert (H0 : (0 <? f) = true) by (apply Z.ltb_lt; cbn in Hlen; lia).
      rewrite H0. cbn. split; discriminate.
Qed.

Lemma world_good_returns :
  Forall (brick_returns world_good) (run_bricks world_good).
Proof.
  rewrite world_good_bricks.
  repeat constructor; exists true; vm_compute; reflexivity.
Qed.

Lemma exit_status_matches_log_witness :
  exit_status (main world_good (initial_state None false)).1 = 0 <->
  st_failures (main world_good (initial_state None false)).2 = None.
Proof.
  apply (exit_status_matches_log world_good
           ("# bricks" +:+ String "010" (String "010"
              ("chembl" +:+ String "010" (" tox21 " +:+ String "010" ""))))
           (initial_state None false) eq_refl world_good_returns).
Defined.

(* ===================================================================== *)
(** * Brick names *)
(* ===================================================================== *)

Lemma lstrip_idem s : lstrip (lstrip s) = lstrip s.
Proof.
  induction s as [| c s IH]; [reflexivity |].
  cbn [lstrip]. destruct (isspace c) eqn:Hc; [exact IH |].
  cbn [lstrip]. rewrite Hc. reflexivity.
Qed.

Lemma rstrip_idem s : rstrip (rstrip s) = rstrip s.
Proof.
  induction s as [| c s IH]; [reflexivity |].
  cbn [rstrip]. destruct (rstrip s) as [| c' r] eqn:Hr.
  - destruct (isspace c) eqn:Hc; [reflexivity |].
    cbn [rstrip]. rewrite Hc. reflexivity.
  - cbn [rstrip] in IH |- *. rewrite IH. reflexivity.
Qed.

Lemma strip_idem s : strip (strip s) = strip s.
Proof.
  unfold strip. rewrite <- (rstrip_lstrip (lstrip s)), lstrip_idem.
  apply rstrip_idem.
Qed.

Lemma lstrip_chars c s :
  In c (list_ascii_of_string (lstrip s)) -> In c (list_ascii_of_string s).
Proof.
  induction s as [| a s IH]; [trivial |].
  cbn [lstrip]. destruct (isspace a); [| trivial].
  intros H. right. apply IH, H.
Qed.

Lemma rstrip_chars c s :
  In c (list_ascii_of_string (rstrip s)) -> In c (list_ascii_of_string s).
Proof.
  induction s as [| a s IH]; [trivial |].
  cbn [rstrip]. destruct (rstrip s) as [| c' r].
  - destruct (isspace a); [intros [] |].
    intros [H | []]. left. exact H.
  - intros [H | H]; [left; exact H | right; apply IH, H].
Qed.

Lemma strip_single_line s : single_line s -> single_line (strip s).
Proof.
  unfold single_line, strip. intros H Hin.
  apply H, lstrip_chars, rstrip_chars, Hin.
Qed.

Lemma rstrip_line_feed s : rstrip (s +:+ String "010" "") = rstrip s.
Proof.
  induction s as [| c s IH]; sapp; [reflexivity |].
  cbn [rstrip]. rewrite IH. reflexivity.
Qed.

Lemma strip_line_feed s : strip (s +:+ String "010" "") = strip s.
Proof.
  unfold strip. rewrite !rstrip_lstrip, rstrip_line_feed. reflexivity.
Qed.

(** A line of a file is a text without line feed, with or without a line
    feed after it. *)
Lemma lines_keepends_line t line :
  In line (lines_keepends t) ->
  exists body,
    single_line body /\ (line = body \/ line = body +:+ String "010" "").
Proof.
  revert line. induction t as [| c t IH]; intros line;
    cbn [lines_keepends]; [intros [] |].
  destruct (Ascii.eqb_spec c "010") as [-> | Hc].
  - intros [<- | Hin]; [| apply IH, Hin].
    exists "". split; [intros [] | right; reflexivity].
  - destruct (lines_keepends t) as [| x xs] eqn:Hl.
    + intros [<- | []]. exists (String c "").
      split; [| left; reflexivity].
      intros [H | []]. congruence.
    + intros [<- | Hin]; [| apply IH; right; exact Hin].
      destruct (IH x (or_introl eq_refl)) as (body & Hbody & Hx).
      exists (String c body). split.
      * intros [H | H]; [congruence | exact (Hbody H)].
      * destruct Hx as [-> | ->]; [left | right]; reflexivity.
Qed.

Lemma read_brick_names_in lines name :
  In name (read_brick_names lines) ->
  exists line, In line lines /\ name = strip line /\ strip line <> "".
Proof.
  induction lines as [| line rest IH]; cbn [read_brick_names]; [intros [] |].
  destruct (truthy (strip line)) eqn:Ht; cbn [andb].
  - destruct (startswith line "#"); cbn [negb].
    + intros H. destruct (IH H) as (l & Hin & Hl). exists l.
      split; [right; exact Hin | exact Hl].
    + intros [<- | H].
      * exists line. split; [left; reflexivity |].
        split; [reflexivity | apply truthy_true, Ht].
      * destruct (IH H) as (l & Hin & Hl). exists l.
        split; [right; exact Hin | exact Hl].
  - intros H. destruct (IH H) as (l & Hin & Hl). exists l.
    split; [right; exact Hin | exact Hl].
Qed.

(** X11.  Every brick name that [main] reads from a catalog is a clean
    token: it is not empty, it has no white space at either end (trimming
    it again changes nothing), and it holds no line feed, so that the
    record [record_failure] writes for it is one line of the log. *)
Theorem brick_names_are_clean (content name : string) :
  In name (read_brick_names (file_lines content)) ->
  name <> "" /\ strip name = name /\ lstrip name = name /\
  rstrip name = name /\ single_line name.
Proof.
  intros Hin.
  destruct (read_brick_names_in _ _ Hin) as (line & Hline & -> & Hne).
  split; [exact Hne |]. split; [apply strip_idem |].
  split; [unfold strip; rewrite rstrip_lstrip; apply lstrip_idem |].
  split; [unfold strip; apply rstrip_idem |].
  destruct (lines_keepends_line _ _ Hline) as (body & Hbody & [-> | ->]).
  - apply strip_single_line, Hbody.
  - rewrite strip_line_feed. apply strip_single_line, Hbody.
Qed.

Lemma brick_names_are_clean_witness :
  "tox21" <> "" /\ strip "tox21" = "tox21" /\ lstrip "tox21" = "tox21" /\
  rstrip "tox21" = "tox21" /\ single_line "tox21".
Proof.
  apply (brick_names_are_clean
           ("# bricks" +:+ String "010" (String "010"
              ("chembl" +:+ String "010" (" tox21 " +:+ String "010" ""))))
           "tox21").
  vm_compute. right. left. reflexivity.
Defined.

Lemma rstrip_hash tail :
  exists rest, rstrip (String "#" tail) = String "#" rest.
Proof.
  cbn [rstrip]. destruct (rstrip tail) as [| c r].
  - exists "". reflexivity.
  - eauto.
Qed.

(** X12.  The comment test looks at the line as it stands in the file, not
    at the trimmed line: a comment that is indented by white space is not
    skipped; it is read as a brick name, and that name starts with [#]. *)
Theorem indented_comment_is_read_as_name (c : ascii) (tail : string)
    (rest : list string) :
  isspace c = true ->
  exists name,
    read_brick_names (String c (String "#" tail) :: rest) =
      String "#" name :: read_brick_names rest.
Proof.
  intros Hc. destruct (rstrip_hash tail) as [name Hname].
  exists name. cbn [read_brick_names].
  assert (Hstrip : strip (String c (String "#" tail)) = String "#" name).
  { rewrite (strip_space c _ Hc). unfold strip. cbn [lstrip].
    change (isspace "#") with false. cbn iota. exact Hname. }
  rewrite Hstrip. cbn [truthy andb].
  assert (Hstart : startswith (String c (String "#" tail)) "#" = false).
  { destruct (startswith (String c (String "#" tail)) "#") eqn:Hs;
      [| reflexivity].
    apply startswith_hash in Hs as [t Ht]. injection Ht as -> _.
    discriminate Hc. }
  rewrite Hstart. reflexivity.
Qed.

Lemma indented_comment_is_read_as_name_witness :
  exists name,
    read_brick_names
      (String " " (String "#" " old brick" +:+ String "010" "") :: []) =
      String "#" name :: read_brick_names [].
Proof.
  apply (indented_comment_is_read_as_name " "
           (" old brick" +:+ String "010" "") []).
  reflexivity.
Defined.

(** X13.  A catalog without brick names (empty, or comments and blank
    lines only) is a successful run: [main] returns (exit status 0), calls
    no library, leaves no failure log, and prints a summary of zero
    successes and zero failures. *)
Theorem main_without_bricks (w : World) (content : string) (st : State) :
  w_catalog w = Some content ->
  read_brick_names (file_lines content) = [] ->
  (main w st).1 = Ret tt /\
  st_calls (main w st).2 = st_calls st /\
  st_failures (main w st).2 = None /\
  st_fail_dir (main w st).2 = st_fail_dir st /\
  st_stdout (main w st).2 =
    (st_stdout st ++
     ["Starting verification of 0 bricks...";
      String "010" "Verification complete:";
      "  ✓ Successful: 0"; "  ✗ Failed: 0";
      "  All bricks verified successfully!"])%list.
Proof.
  intros Hcat Hnames. rewrite (main_present w content st Hcat), Hnames.
  cbn [verify_all]. rewrite run_ret. cbn [Z.ltb Z.compare fst snd].
  unfold summary. cbn [st_calls st_failures st_fail_dir st_stdout set_stdout].
  rewrite loop_entry_calls, loop_entry_failures, loop_entry_fail_dir.
  repeat split.
  unfold loop_entry.
  destruct (bool_decide (is_Some (st_failures st)));
    cbn [st_stdout set_stdout set_failures]; rewrite <- app_assoc;
    reflexivity.
Qed.

Lemma main_without_bricks_witness :
  (main world_comments (initial_state (Some ["old"]) true)).1 = Ret tt.
Proof.
  apply (main_without_bricks world_comments
           ("# nothing to verify" +:+ String "010"
              ("   " +:+ String "010" "#"))
           (initial_state (Some ["old"]) true) eq_refl).
  vm_compute. reflexivity.
Defined.

(* ===================================================================== *)
(** * The suffixes of the dispatch *)
(* ===================================================================== *)

Lemma last2_cons c t p : last2 t = Some p -> last2 (String c t) = Some p.
Proof.
  destruct t as [| a [| b t]]; cbn [last2]; try discriminate.
  destruct t; trivial.
Qed.

Lemma last2_app front suf p :
  last2 suf = Some p -> last2 (front +:+ suf) = Some p.
Proof.
  intros H. induction front as [| c front IH]; sapp; [exact H |].
  apply last2_cons, IH.
Qed.

Lemma has_suffix_last2 s suf p :
  last2 suf = Some p ->
  has_suffix_nocaseb s suf = true -> last2 (lower s) = Some p.
Proof.
  intros Hp Hs. apply has_suffix_nocaseb_correct in Hs.
  destruct Hs as (front & back & -> & <-).
  rewrite lower_app. apply last2_app, Hp.
Qed.

Lemma suffixes_exclusive s suf1 suf2 p1 p2 :
  last2 suf1 = Some p1 -> last2 suf2 = Some p2 -> p1 <> p2 ->
  has_suffix_nocaseb s suf1 = true -> has_suffix_nocaseb s suf2 = true ->
  False.
Proof.
  intros H1 H2 Hne Hs1 Hs2.
  pose proof (has_suffix_last2 s suf1 p1 H1 Hs1) as L1.
  pose proof (has_suffix_last2 s suf2 p2 H2 Hs2) as L2.
  congruence.
Qed.

(** X14.  The suffixes of different checkers never match the same asset
    reference, so the order of the tests decides nothing: each checker
    runs exactly when one of its own suffixes ends the reference (without
    regard to case), and the generic checker exactly when none does. *)
Theorem checker_selected_by_own_suffix (asset_ref : string) :
  (checker_by_precedence asset_ref = Columnar <->
   has_suffix_nocase asset_ref ".parquet") /\
  (checker_by_precedence asset_ref = Relational <->
   has_suffix_nocase asset_ref ".sqlite" \/
   has_suffix_nocase asset_ref ".sqlite3" \/
   has_suffix_nocase asset_ref ".db") /\
  (checker_by_precedence asset_ref = TripleStore <->
   has_suffix_nocase asset_ref ".hdt") /\
  (checker_by_precedence asset_ref = Generic <->
   ~ has_suffix_nocase asset_ref ".parquet" /\
   ~ has_suffix_nocase asset_ref ".sqlite" /\
   ~ has_suffix_nocase asset_ref ".sqlite3" /\
   ~ has_suffix_nocase asset_ref ".db" /\
   ~ has_suffix_nocase asset_ref ".hdt").
Proof.
  rewrite <- !has_suffix_nocaseb_correct.
  unfold checker_by_precedence, suffix_table. cbn [first_match].
  assert (Hps := fun H1 H2 =>
    suffixes_exclusive asset_ref ".parquet" ".sqlite" _ _ eq_refl eq_refl
      ltac:(discriminate) H1 H2).
  assert (Hp3 := fun H1 H2 =>
    suffixes_exclusive asset_ref ".parquet" ".sqlite3" _ _ eq_refl eq_refl
      ltac:(discriminate) H1 H2).
  assert (Hpd := fun H1 H2 =>
    suffixes_exclusive asset_ref ".parquet" ".db" _ _ eq_refl eq_refl
      ltac:(discriminate) H1 H2).
  assert (Hph := fun H1 H2 =>
    suffixes_exclusive asset_ref ".parquet" ".hdt" _ _ eq_refl eq_refl
      ltac:(discriminate) H1 H2).
  assert (Hsh := fun H1 H2 =>
    suffixes_exclusive asset_ref ".sqlite" ".hdt" _ _ eq_refl eq_refl
      ltac:(discriminate) H1 H2).
  assert (H3h := fun H1 H2 =>
    suffixes_exclusive asset_ref ".sqlite3" ".hdt" _ _ eq_refl eq_refl
      ltac:(discriminate) H1 H2).
  assert (Hdh := fun H1 H2 =>
    suffixes_exclusive asset_ref ".db" ".hdt" _ _ eq_refl eq_refl
      ltac:(discriminate) H1 H2).
  destruct (has_suffix_nocaseb asset_ref ".parquet");
    [ destruct (has_suffix_nocaseb asset_ref ".sqlite");
        [exfalso; apply Hps; reflexivity |];
      destruct (has_suffix_nocaseb asset_ref ".sqlite3");
        [exfalso; apply Hp3; reflexivity |];
      destruct (has_suffix_nocaseb asset_ref ".db");
        [exfalso; apply Hpd; reflexivity |];
      destruct (has_suffix_nocaseb asset_ref ".hdt");
        [exfalso; apply Hph; reflexivity |]
    | destruct (has_suffix_nocaseb asset_ref ".hdt");
        [ destruct (has_suffix_nocaseb asset_ref ".sqlite");
            [exfalso; apply Hsh; reflexivity |];
          destruct (has_suffix_nocaseb asset_ref ".sqlite3");
            [exfalso; apply H3h; reflexivity |];
          destruct (has_suffix_nocaseb asset_ref ".db");
            [exfalso; apply Hdh; reflexivity |]
        | destruct (has_suffix_nocaseb asset_ref ".sqlite"),
                   (has_suffix_nocaseb asset_ref ".sqlite3"),
                   (has_suffix_nocaseb asset_ref ".db") ] ];
    clear; intuition (try reflexivity; try discriminate).
Qed.

(* ===================================================================== *)
(** * Console and log *)
(* ===================================================================== *)

#[export] Instance silent_refl : Reflexive silent.
Proof. intros st. split; reflexivity. Qed.

#[export] Instance silent_trans : Transitive silent.
Proof. intros a b c [H1 H2] [H3 H4]. split; congruence. Qed.

#[export] Instance console_log_refl : Reflexive console_log.
Proof.
  intros st. exists [], []. cbn [map]. rewrite !app_nil_r. repeat split.
Qed.

#[export] Instance console_log_trans : Transitive console_log.
Proof.
  intros a b c (o1 & r1 & H1 & L1 & C1) (o2 & r2 & H2 & L2 & C2).
  exists (o1 ++ o2)%list, (r1 ++ r2)%list.
  rewrite H2, H1, L2, L1, <- !app_assoc, List.filter_app, !map_app, C1, C2.
  repeat split.
Qed.

Lemma silent_console_log st st' : silent st st' -> console_log st st'.
Proof.
  intros [H1 H2]. exists [], []. cbn [map].
  rewrite H1, H2, !app_nil_r. repeat split.
Qed.

Lemma steps_silent_console_log {A} (m : M A) :
  steps silent m -> steps console_log m.
Proof. intros H st. apply silent_console_log, H. Qed.

Lemma modify_silent f :
  (forall st, st_stdout (f st) = st_stdout st /\
              st_failures (f st) = st_failures st) ->
  steps silent (modify f).
Proof. intros H st. apply H. Qed.

Lemma library_silent {A} c (r : pyexc + A) : steps silent (library c r).
Proof.
  unfold library. apply steps_bind.
  - intros st. split; reflexivity.
  - intros _. apply steps_of_answer.
Qed.

#[export] Hint Resolve library_silent : script.
#[export] Hint Extern 1 (steps silent (modify _)) =>
  apply modify_silent; intros ?; split; reflexivity : script.
#[export] Hint Extern 1 (steps silent (log_call _)) =>
  apply modify_silent; intros ?; split; reflexivity : script.

Lemma print_console_log s :
  reports_failure s = false -> steps console_log (print s).
Proof.
  intros Hs st. exists [s], []. cbn [List.filter map].
  rewrite Hs, app_nil_r. repeat split.
Qed.

#[export] Hint Extern 1 (steps console_log (print _)) =>
  apply print_console_log; reflexivity : script.

Lemma reports_failure_FAILED x : reports_failure ("FAILED: " +:+ x) = true.
Proof.
  unfold reports_failure, startswith. rewrite !append_String, append_empty.
  cbn [String.prefix].
  repeat (destruct (ascii_dec _ _) as [_ | Hne];
          [| exfalso; apply Hne; reflexivity]).
  destruct x; reflexivity.
Qed.

Lemma record_failure_console_log b reason :
  steps console_log (record_failure b reason).
Proof.
  intros st. exists ["FAILED: " +:+ b +:+ " - " +:+ reason], [(b, reason)].
  split; [reflexivity | split; [reflexivity |]].
  cbn [List.filter]. rewrite reports_failure_FAILED. reflexivity.
Qed.

#[export] Hint Resolve record_failure_console_log : script.

Lemma sum_fragments_silent frags n : steps silent (sum_fragments frags n).
Proof. revert n. induction frags; cbn [sum_fragments]; walk. Qed.

Lemma count_rows_silent p db ts n : steps silent (count_rows p db ts n).
Proof. revert n. induction ts; cbn [count_rows]; walk. Qed.

#[export] Hint Resolve sum_fragments_silent count_rows_silent : script.

Lemma run_checker_silent w k input : steps silent (run_checker w k input).
Proof.
  destruct k; cbn [run_checker];
    [ unfold verify_parquet_file
    | unfold verify_sqlite_file, sqlite_connect, sqlite_close
    | unfold verify_hdt_file | unfold verify_other_file, getsize ];
    walk.
Qed.

Lemma verify_asset_file_silent w a b : steps silent (verify_asset_file w a b).
Proof.
  rewrite verify_asset_file_unfold. unfold getattr.
  pose proof (run_checker_silent w Columnar) as Hc.
  pose proof (run_checker_silent w Relational) as Hr.
  pose proof (run_checker_silent w TripleStore) as Ht.
  pose proof (run_checker_silent w Generic) as Hg.
  cbn [run_checker] in Hc, Hr, Ht, Hg. walk.
Qed.

Lemma get_brick_assets_silent w b : steps silent (get_brick_assets w b).
Proof.
  intros st. rewrite get_brick_assets_run. split; reflexivity.
Qed.

#[export] Hint Resolve verify_asset_file_silent get_brick_assets_silent
  steps_silent_console_log : script.

Lemma verify_assets_console_log w b assets :
  steps console_log (verify_assets w b assets).
Proof. induction assets; cbn [verify_assets]; walk. Qed.

#[export] Hint Resolve verify_assets_console_log : script.

Lemma verify_brick_console_log w b : steps console_log (verify_brick w b).
Proof. unfold verify_brick. walk. Qed.

#[export] Hint Resolve verify_brick_console_log : script.

Lemma verify_all_console_log w names s f :
  steps console_log (verify_all w names s f).
Proof. revert s f. induction names; cbn [verify_all]; walk. Qed.

(** X16.  Console and failure log agree, call by call.  Over a present
    catalog, the [print] calls of a run whose text starts with [FAILED: ]
    are, in their order, one report [FAILED: <brick> - <reason>] for each
    line of the failure log the run leaves, for the same bricks in the same
    order: every failure is printed once and recorded once, and no other
    [print] call starts with [FAILED: ].  (This counts [print] calls, not
    console lines: a reason that quotes a library message holding line
    feeds is one call and several lines.) *)
Theorem console_agrees_with_log (w : World) (content : string) (st : State) :
  w_catalog w = Some content ->
  exists out records,
    st_stdout (main w st).2 = (st_stdout st ++ out)%list /\
    default [] (st_failures (main w st).2) = map fst records /\
    List.filter reports_failure out = map failure_report records.
Proof.
  intros Hcat. rewrite (main_present w content st Hcat).
  set (names := read_brick_names (file_lines content)).
  destruct (verify_all_console_log w names 0 0 (loop_entry names st))
    as (out & records & Hout & Hnew & Hrep).
  rewrite loop_entry_failures in Hnew. cbn [default app] in Hnew.
  assert (Hentry : st_stdout (loop_entry names st) =
                   (st_stdout st ++
                    ["Starting verification of "
                     +:+ str_of_nat (length names) +:+ " bricks..."])%list).
  { unfold loop_entry. destruct (bool_decide _); reflexivity. }
  rewrite Hentry in Hout.
  destruct (verify_all w names 0 0 (loop_entry names st))
    as [[[s f] | r] st1]; cbn [snd] in *.
  - eexists. exists records. unfold summary.
    cbn [st_stdout st_failures set_stdout].
    rewrite Hout, <- !app_assoc. split; [reflexivity |].
    split; [exact Hnew |].
    rewrite !List.filter_app, Hrep.
    destruct (0 <? f); cbn [List.filter];
      repeat match goal with
             | |- context [reports_failure ?x] =>
                 change (reports_failure x) with false
             end;
      cbn [app]; apply app_nil_r.
  - eexists. exists records. rewrite Hout, <- !app_assoc.
    split; [reflexivity |]. split; [exact Hnew |].
    rewrite !List.filter_app, Hrep. cbn [List.filter].
    repeat match goal with
           | |- context [reports_failure ?x] =>
               change (reports_failure x) with false
           end.
    reflexivity.
Qed.

Lemma console_agrees_with_log_witness :
  exists out records,
    st_stdout (main world_duplicate (initial_state None false)).2 =
      ([] ++ out)%list /\
    default []
      (st_failures (main world_duplicate (initial_state None false)).2)
    = map fst records /\
    List.filter reports_failure out = map failure_report records.
Proof.
  apply (console_agrees_with_log world_duplicate
           ("a" +:+ String "010" ("a" +:+ String "010" ""))
           (initial_state None false) eq_refl).
Defined.

(* ===================================================================== *)
(** * Asset references *)
(* ===================================================================== *)

Lemma split_line_feed_single_line s x :
  In x (split "010" s) -> single_line x.
Proof.
  revert x. induction s as [| c s IH]; intros x; cbn [split].
  - intros [<- | []]. intros [].
  - destruct (Ascii.eqb_spec c "010") as [-> | Hc].
    + intros [<- | Hin]; [intros [] | apply IH, Hin].
    + pose proof (split_nonempty "010" s) as Hne.
      destruct (split "010" s) as [| y ys]; [contradiction |].
      intros [<- | Hin]; [| apply IH; right; exact Hin].
      intros [H | H]; [congruence |].
      apply (IH y (or_introl eq_refl)), H.
Qed.

Lemma asset_lines_in output a :
  In a (asset_lines output) ->
  exists line, In line (split "010" output) /\ a = strip line /\ a <> "".
Proof.
  unfold asset_lines. intros Hin. apply in_map_iff in Hin as (line & <- & Hin).
  apply filter_In in Hin as [Hin Ht]. exists line.
  split; [exact Hin |]. split; [reflexivity | apply truthy_true, Ht].
Qed.

(** X17.  Every asset reference the resolver returns is a clean token: not
    empty, without white space at either end, and without line feed; the
    brick verifier never sees a blank or an untrimmed reference. *)
Theorem asset_references_are_clean (w : World) (brick_name : string)
    (st : State) (ok : bool) (asset_files : list string) (a : string) :
  (get_brick_assets w brick_name st).1 = Ret (ok, asset_files) ->
  In a asset_files ->
  a <> "" /\ strip a = a /\ single_line a.
Proof.
  rewrite get_brick_assets_run. cbn [fst]. intros Hrun Hin.
  assert (Hlines : exists output, In a (asset_lines output)).
  { destruct (w_subprocess w (lookup_cmd brick_name)) as [rc out err | err |];
      [destruct (rc =? 0) | |]; try discriminate Hrun;
      injection Hrun as _ <-; [eauto | destruct Hin | destruct Hin]. }
  destruct Hlines as [output Hout].
  destruct (asset_lines_in output a Hout) as (line & Hline & -> & Hne).
  split; [exact Hne |]. split; [apply strip_idem |].
  apply strip_single_line, (split_line_feed_single_line output), Hline.
Qed.

Lemma asset_references_are_clean_witness :
  "tox21_sqlite: /bricks/tox21.sqlite" <> "" /\
  strip "tox21_sqlite: /bricks/tox21.sqlite"
    = "tox21_sqlite: /bricks/tox21.sqlite" /\
  single_line "tox21_sqlite: /bricks/tox21.sqlite".
Proof.
  apply (asset_references_are_clean world_good "tox21"
           (initial_state None false) true
           ["tox21_sqlite: /bricks/tox21.sqlite"]).
  - vm_compute. reflexivity.
  - left. reflexivity.
Defined.
